(** * Crypto Order Point Analyzer: a shallow embedding of [crypto_analyzer.py]

    The development models the indicator pipeline of [OrderPointAnalyzer]:
    RSI, MACD, Bollinger bands, support and resistance levels, the RSI
    divergence test, the point-scoring signal and the entry plan.

    Numbers.  The program computes on IEEE doubles held in pandas series.
    They are modelled by [num]: exact rationals extended with [NaN] and the two
    infinities.  Comparisons with [NaN] are false, [0/0] and [inf - inf] are
    [NaN], [x/0] is an infinity for [x <> 0].  Rounding error, overflow and the
    sign of zero are not modelled.

    Pandas.  [rolling], [ewm], [diff], [where], [min] and [max] are library
    code; they are modelled by their documented meaning (a trailing window with
    [min_periods = window], the recurrence of [ewm(adjust=False)], reductions
    that skip [NaN]).  Window sizes and periods are natural numbers and spans
    are positive, as pandas requires.  The square root of the standard
    deviation is a parameter [sqrtQ] on the rationals; [Qsqrt6] is one to run
    the definitions with.

    Errors.  Positional indexing out of bounds raises [IndexError], a missing
    column raises [KeyError]; both are values of [result]. *)

From Stdlib Require Import String QArith Qround ZArith List Bool Lia Lqa.
From Stdlib Require Import Sorting.Sorted.
Import ListNotations.

Set Implicit Arguments.

(** ** Extended numbers *)

Module Num.

Inductive num : Type :=
| NaN
| NInf
| PInf
| Fin (q : Q).

(** Finite results are kept in lowest terms, so that two equal values
    produced by arithmetic are the same term. *)
Definition fin (q : Q) : num := Fin (Qred q).

Definition of_Z (z : Z) : num := Fin (z # 1).
Definition of_nat (n : nat) : num := of_Z (Z.of_nat n).

Definition is_nan (x : num) : bool :=
  match x with NaN => true | _ => false end.

Definition is_fin (x : num) : bool :=
  match x with Fin _ => true | _ => false end.

(** Sign of a number as a [comparison] with zero ([Eq] for [NaN], which no
    caller inspects). *)
Definition sign (x : num) : comparison :=
  match x with
  | NaN => Eq
  | NInf => Lt
  | PInf => Gt
  | Fin q => (q ?= 0)%Q
  end.

Definition mul_sign (a b : comparison) : comparison :=
  match a, b with
  | Eq, _ | _, Eq => Eq
  | Gt, c | c, Gt => c
  | Lt, Lt => Gt
  end.

(** The infinity of a given sign; a zero sign is the invalid operation. *)
Definition inf_of_sign (c : comparison) : num :=
  match c with Gt => PInf | Lt => NInf | Eq => NaN end.

Definition fneg (x : num) : num :=
  match x with
  | NaN => NaN
  | NInf => PInf
  | PInf => NInf
  | Fin q => fin (- q)
  end.

Definition fadd (x y : num) : num :=
  match x, y with
  | NaN, _ | _, NaN => NaN
  | PInf, NInf | NInf, PInf => NaN
  | PInf, _ | _, PInf => PInf
  | NInf, _ | _, NInf => NInf
  | Fin a, Fin b => fin (a + b)
  end.

Definition fsub (x y : num) : num :=
  match x, y with
  | NaN, _ | _, NaN => NaN
  | PInf, PInf | NInf, NInf => NaN
  | PInf, _ | _, NInf => PInf
  | NInf, _ | _, PInf => NInf
  | Fin a, Fin b => fin (a - b)
  end.

Definition fmul (x y : num) : num :=
  match x, y with
  | NaN, _ | _, NaN => NaN
  | Fin a, Fin b => fin (a * b)
  | _, _ => inf_of_sign (mul_sign (sign x) (sign y))
  end.

Definition fdiv (x y : num) : num :=
  match x, y with
  | NaN, _ | _, NaN => NaN
  | Fin a, Fin b =>
      if Qeq_bool b 0 then inf_of_sign (a ?= 0)%Q else fin (a / b)
  | Fin _, _ => Fin 0
  | _, Fin b =>
      inf_of_sign (mul_sign (sign x) (if Qeq_bool b 0 then Gt else (b ?= 0)%Q))
  | _, _ => NaN
  end.

(** [x < y]; false as soon as one side is [NaN]. *)
Definition fltb (x y : num) : bool :=
  match x, y with
  | NaN, _ | _, NaN => false
  | NInf, NInf => false
  | NInf, _ => true
  | _, NInf => false
  | PInf, _ => false
  | Fin _, PInf => true
  | Fin a, Fin b => match (a ?= b)%Q with Lt => true | _ => false end
  end.

(** [x == y] by value; [NaN] equals nothing. *)
Definition feqb (x y : num) : bool :=
  match x, y with
  | NInf, NInf | PInf, PInf => true
  | Fin a, Fin b => Qeq_bool a b
  | _, _ => false
  end.

Definition fleb (x y : num) : bool := fltb x y || feqb x y.
Definition fgtb (x y : num) : bool := fltb y x.
Definition fgeb (x y : num) : bool := fleb y x.

(** Square root, over a given square root [sqrtQ] of the rationals. *)
Definition fsqrt (sqrtQ : Q -> Q) (x : num) : num :=
  match x with
  | NaN | NInf => NaN
  | PInf => PInf
  | Fin q => if Qle_bool 0 q then fin (sqrtQ q) else NaN
  end.

(** A square root of the rationals to six decimal places, rounded down:
    [sqrt (n/d) = sqrt (n * d) / d]. *)
Definition Qsqrt6 (q : Q) : Q :=
  (Z.sqrt (Qnum q * Zpos (Qden q) * 1000000000000)
     # (Qden q * 1000000))%Q.

(** Round half to even, to an integer. *)
Definition Qrint (q : Q) : Z :=
  let f := Qfloor q in
  match ((q - (f # 1)) ?= (1 # 2))%Q with
  | Lt => f
  | Gt => (f + 1)%Z
  | Eq => if Z.even f then f else (f + 1)%Z
  end.

(** [round(x, 2)] on a rational. *)
Definition Qround2 (q : Q) : Q := (Qrint (q * 100) # 100)%Q.

(** [round(x, 2)]: [NaN] and the infinities round to themselves. *)
Definition fround2 (x : num) : num :=
  match x with
  | Fin q => fin (Qround2 q)
  | _ => x
  end.

End Num.

Export Num.

(** ** Exceptions *)

Inductive exn : Type := IndexError | KeyError.

Inductive result (A : Type) : Type :=
| Ok (a : A)
| Raise (e : exn).

Arguments Ok {A} a.
Arguments Raise {A} e.

Definition bind {A B : Type} (m : result A) (k : A -> result B) : result B :=
  match m with
  | Ok a => k a
  | Raise e => Raise e
  end.

Notation "x <- m ;; k" := (bind m (fun x => k))
  (at level 61, m at next level, right associativity).

(** ** Pandas series *)

Module Pandas.

Definition Series : Type := list num.

(** [s.iloc[i]]: a negative position counts from the end. *)
Definition iloc (s : Series) (i : Z) : result num :=
  let n := Z.of_nat (length s) in
  let j := if (i <? 0)%Z then (n + i)%Z else i in
  if ((0 <=? j) && (j <? n))%Z
  then Ok (nth (Z.to_nat j) s NaN)
  else Raise IndexError.

(** [s.iloc[a:b]] for [0 <= a]: the stop is clipped to the length. *)
Definition slice (s : Series) (a b : nat) : Series :=
  firstn (b - a) (skipn a s).

Fixpoint map2 (f : num -> num -> num) (s t : Series) : Series :=
  match s, t with
  | x :: s', y :: t' => f x y :: map2 f s' t'
  | _, _ => []
  end.

(** [s.diff()]: the first entry has no predecessor. *)
Definition diff (s : Series) : Series :=
  match s with
  | [] => []
  | _ :: t => NaN :: map2 fsub t s
  end.

(** [s.where(cond, other)] *)
Definition where_ (cond : num -> bool) (other : num) (s : Series) : Series :=
  map (fun x => if cond x then x else other) s.

Definition fsum (w : Series) : num := fold_right fadd (Fin 0) w.

Definition mean (w : Series) : num := fdiv (fsum w) (of_nat (length w)).

(** Sample standard deviation ([ddof = 1]). *)
Definition std (sqrtQ : Q -> Q) (w : Series) : num :=
  let m := mean w in
  let dev := map (fun x => let d := fsub x m in fmul d d) w in
  fsqrt sqrtQ (fdiv (fsum dev) (of_Z (Z.of_nat (length w) - 1))).

(** [s.rolling(window).agg()]: entry [i] aggregates the [window] values that
    end at [i]; the first [window - 1] entries are [NaN]. *)
Definition rolling (window : nat) (agg : Series -> num) (s : Series) : Series :=
  map (fun i => if (S i <? window)%nat then NaN
                else agg (slice s (S i - window) (S i)))
      (seq 0 (length s)).

Fixpoint ewm_from (alpha : Q) (prev : num) (s : Series) : Series :=
  match s with
  | [] => []
  | x :: t =>
      let y := fadd (fmul (Fin (1 - alpha)) prev) (fmul (Fin alpha) x) in
      y :: ewm_from alpha y t
  end.

(** [s.ewm(span, adjust=False).mean()] with [alpha = 2 / (span + 1)].
    Pandas rejects a span under 1, hence a positive [span]. *)
Definition ewm_mean (span : positive) (s : Series) : Series :=
  match s with
  | [] => []
  | x :: t => x :: ewm_from (2 # (span + 1)) x t
  end.

(** [s.min()] and [s.max()] skip [NaN]; an empty reduction is [NaN]. *)
Definition fmin2 (x y : num) : num :=
  if is_nan x then y else if is_nan y then x else if fltb y x then y else x.

Definition fmax2 (x y : num) : num :=
  if is_nan x then y else if is_nan y then x else if fltb x y then y else x.

Definition smin (s : Series) : num := fold_right fmin2 NaN s.
Definition smax (s : Series) : num := fold_right fmax2 NaN s.

(** [sorted(l)]: a stable insertion by [<]. *)
Fixpoint insert_sorted (x : num) (l : list num) : list num :=
  match l with
  | [] => [x]
  | y :: t => if fltb x y then x :: l else y :: insert_sorted x t
  end.

Definition sorted (l : list num) : list num :=
  fold_right insert_sorted [] l.

(** [sorted(l, reverse=True)] *)
Definition sorted_reverse (l : list num) : list num :=
  rev (sorted (rev l)).

(** [set(l)]: one representative for each value.  The iteration order of a
    Python set is not specified; here the first occurrences, in order. *)
Fixpoint set_ (l : list num) : list num :=
  match l with
  | [] => []
  | x :: t => x :: filter (fun y => negb (feqb x y)) (set_ t)
  end.

End Pandas.

Export Pandas.

(** ** The candle table *)

Record Candle : Type := {
  timestamp : Z;
  open : num;
  high : num;
  low : num;
  close : num;
  volume : num
}.

(** The table [self.data]: the fetched candles, oldest first, and the
    indicator columns that the [calculate_*] methods attach. *)
Record DataFrame : Type := {
  candles : list Candle;
  rsi : option Series;
  macd : option Series;
  macd_signal : option Series;
  macd_histogram : option Series;
  bb_upper : option Series;
  bb_middle : option Series;
  bb_lower : option Series
}.

(** [pd.DataFrame(ohlcv, columns=[...])] *)
Definition new_frame (cs : list Candle) : DataFrame :=
  {| candles := cs; rsi := None; macd := None; macd_signal := None;
     macd_histogram := None; bb_upper := None; bb_middle := None;
     bb_lower := None |}.

Definition col_high (df : DataFrame) : Series := map high (candles df).
Definition col_low (df : DataFrame) : Series := map low (candles df).
Definition col_close (df : DataFrame) : Series := map close (candles df).

(** [self.data[name]] for an indicator column. *)
Definition col (c : option Series) : result Series :=
  match c with
  | Some s => Ok s
  | None => Raise KeyError
  end.

Definition set_rsi (df : DataFrame) (s : Series) : DataFrame :=
  {| candles := candles df; rsi := Some s; macd := macd df;
     macd_signal := macd_signal df; macd_histogram := macd_histogram df;
     bb_upper := bb_upper df; bb_middle := bb_middle df;
     bb_lower := bb_lower df |}.

Definition set_macd (df : DataFrame) (m s h : Series) : DataFrame :=
  {| candles := candles df; rsi := rsi df; macd := Some m;
     macd_signal := Some s; macd_histogram := Some h;
     bb_upper := bb_upper df; bb_middle := bb_middle df;
     bb_lower := bb_lower df |}.

Definition set_bb (df : DataFrame) (u m l : Series) : DataFrame :=
  {| candles := candles df; rsi := rsi df; macd := macd df;
     macd_signal := macd_signal df; macd_histogram := macd_histogram df;
     bb_upper := Some u; bb_middle := Some m; bb_lower := Some l |}.

(** ** OrderPointAnalyzer *)

Record OrderPointAnalyzer : Type := {
  symbol : string;
  timeframe : string;
  data : option DataFrame
}.

Definition with_data (self : OrderPointAnalyzer) (df : DataFrame)
  : OrderPointAnalyzer :=
  {| symbol := symbol self; timeframe := timeframe self; data := Some df |}.

(** *** calculate_rsi *)

Definition rsi_gain (period : nat) (closes : Series) : Series :=
  rolling period mean (where_ (fun d => fgtb d (of_Z 0)) (of_Z 0) (diff closes)).

Definition rsi_loss (period : nat) (closes : Series) : Series :=
  rolling period mean
    (map fneg (where_ (fun d => fltb d (of_Z 0)) (of_Z 0) (diff closes))).

Definition rsi_of_rs (rs : num) : num :=
  fsub (of_Z 100) (fdiv (of_Z 100) (fadd (of_Z 1) rs)).

Definition rsi_series (period : nat) (closes : Series) : Series :=
  let gain := rsi_gain period closes in
  let loss := rsi_loss period closes in
  let rs := map2 fdiv gain loss in
  map rsi_of_rs rs.

Definition calculate_rsi (period : nat) (self : OrderPointAnalyzer)
  : OrderPointAnalyzer * option Series :=
  match data self with
  | None => (self, None)
  | Some df =>
      let rsi := rsi_series period (col_close df) in
      (with_data self (set_rsi df rsi), Some rsi)
  end.

(** *** calculate_macd *)

Definition macd_series (fast slow signal : positive) (closes : Series)
  : Series * Series * Series :=
  let exp1 := ewm_mean fast closes in
  let exp2 := ewm_mean slow closes in
  let macd := map2 fsub exp1 exp2 in
  let signal_line := ewm_mean signal macd in
  let histogram := map2 fsub macd signal_line in
  (macd, signal_line, histogram).

Definition calculate_macd (fast slow signal : positive)
    (self : OrderPointAnalyzer)
  : OrderPointAnalyzer * option (Series * Series * Series) :=
  match data self with
  | None => (self, None)
  | Some df =>
      let '(macd, signal_line, histogram) :=
        macd_series fast slow signal (col_close df) in
      (with_data self (set_macd df macd signal_line histogram),
       Some (macd, signal_line, histogram))
  end.

(** *** calculate_bollinger_bands *)

Section Bollinger.

Variable sqrtQ : Q -> Q.

Definition bollinger_series (period : nat) (std_dev : Q) (closes : Series)
  : Series * Series * Series :=
  let sma := rolling period mean closes in
  let std := rolling period (std sqrtQ) closes in
  let upper_band := map2 fadd sma (map (fun s => fmul s (Fin std_dev)) std) in
  let lower_band := map2 fsub sma (map (fun s => fmul s (Fin std_dev)) std) in
  (upper_band, sma, lower_band).

Definition calculate_bollinger_bands (period : nat) (std_dev : Q)
    (self : OrderPointAnalyzer)
  : OrderPointAnalyzer * option (Series * Series * Series) :=
  match data self with
  | None => (self, None)
  | Some df =>
      let '(upper_band, sma, lower_band) :=
        bollinger_series period std_dev (col_close df) in
      (with_data self (set_bb df upper_band sma lower_band),
       Some (upper_band, sma, lower_band))
  end.

End Bollinger.

(** *** find_support_resistance *)

Record Levels : Type := {
  support : list num;
  resistance : list num
}.

(** One turn of the loop at index [i].  The loop runs [i] over
    [range(window, len - window)], so every positional read is in bounds. *)
Definition level_step (window : nat) (df : DataFrame)
    (acc : list num * list num) (i : nat) : list num * list num :=
  let '(support_levels, resistance_levels) := acc in
  let support_levels :=
    if feqb (nth i (col_low df) NaN)
            (smin (slice (col_low df) (i - window) (i + window)))
    then support_levels ++ [nth i (col_low df) NaN]
    else support_levels in
  let resistance_levels :=
    if feqb (nth i (col_high df) NaN)
            (smax (slice (col_high df) (i - window) (i + window)))
    then resistance_levels ++ [nth i (col_high df) NaN]
    else resistance_levels in
  (support_levels, resistance_levels).

Definition level_candidates (window : nat) (df : DataFrame)
  : list num * list num :=
  let n := length (candles df) in
  fold_left (level_step window df) (seq window (n - window - window)) ([], []).

Definition find_support_resistance (window : nat) (self : OrderPointAnalyzer)
  : option Levels :=
  match data self with
  | None => None
  | Some df =>
      let '(support_levels, resistance_levels) := level_candidates window df in
      Some {| support := firstn 3 (sorted_reverse (set_ support_levels));
              resistance := firstn 3 (sorted (set_ resistance_levels)) |}
  end.

(** *** detect_divergence *)

Record Divergence : Type := {
  bullish : bool;
  bearish : bool
}.

(** [s.iloc[i] op s.iloc[j]] *)
Definition cmp_at (op : num -> num -> bool) (s : Series) (i j : Z)
  : result bool :=
  a <- iloc s i ;; b <- iloc s j ;; Ok (op a b).

Definition detect_divergence (self : OrderPointAnalyzer)
  : result (option Divergence) :=
  match data self with
  | None => Ok None
  | Some df =>
      match rsi df with
      | None => Ok None
      | Some rsi =>
          price_lower <- cmp_at fltb (col_close df) (-1) (-20) ;;
          rsi_higher <- cmp_at fgtb rsi (-1) (-20) ;;
          let bullish_divergence := price_lower && rsi_higher in
          price_higher <- cmp_at fgtb (col_close df) (-1) (-20) ;;
          rsi_lower <- cmp_at fltb rsi (-1) (-20) ;;
          let bearish_divergence := price_higher && rsi_lower in
          Ok (Some {| bullish := bullish_divergence;
                      bearish := bearish_divergence |})
      end
  end.

(** *** generate_signal *)

Record Signal : Type := {
  action : string;
  confidence : Z;
  signals : list string
}.

(** The two locals that the scoring rules update. *)
Record Score : Type := {
  sc_signals : list string;
  sc_confidence : Z
}.

(** The reasons that the rules append. *)
Definition msg_rsi_oversold : string :=
  "RSI oversold (買いシグナル)".
Definition msg_rsi_overbought : string :=
  "RSI overbought (売りシグナル)".
Definition msg_macd_bullish : string :=
  "MACD bullish crossover (買いシグナル)".
Definition msg_macd_bearish : string :=
  "MACD bearish crossover (売りシグナル)".
Definition msg_below_lower : string :=
  "Price below lower Bollinger Band (買いシグナル)".
Definition msg_above_upper : string :=
  "Price above upper Bollinger Band (売りシグナル)".
Definition msg_bullish_divergence : string :=
  "Bullish divergence detected (買いシグナル)".
Definition msg_bearish_divergence : string :=
  "Bearish divergence detected (売りシグナル)".

(** [signals.append(reason); confidence += points] *)
Definition fire (reason : string) (points : Z) (st : Score) : Score :=
  {| sc_signals := sc_signals st ++ [reason];
     sc_confidence := (sc_confidence st + points)%Z |}.

(** [self.data[a].iloc[i] op self.data[b].iloc[i]] *)
Definition cmp_cols (op : num -> num -> bool) (a b : option Series) (i : Z)
  : result bool :=
  sa <- col a ;; x <- iloc sa i ;;
  sb <- col b ;; y <- iloc sb i ;;
  Ok (op x y).

Definition rsi_rule (df : DataFrame) (st : Score) : result Score :=
  s <- col (rsi df) ;;
  current_rsi <- iloc s (-1) ;;
  if fltb current_rsi (of_Z 30) then
    Ok (fire msg_rsi_oversold 20 st)
  else if fgtb current_rsi (of_Z 70) then
    Ok (fire msg_rsi_overbought (-20) st)
  else Ok st.

Definition macd_rule (df : DataFrame) (st : Score) : result Score :=
  above <- cmp_cols fgtb (macd df) (macd_signal df) (-1) ;;
  if above then
    was_below <- cmp_cols fleb (macd df) (macd_signal df) (-2) ;;
    if was_below then
      Ok (fire msg_macd_bullish 25 st)
    else Ok st
  else
    below <- cmp_cols fltb (macd df) (macd_signal df) (-1) ;;
    if below then
      was_above <- cmp_cols fgeb (macd df) (macd_signal df) (-2) ;;
      if was_above then
        Ok (fire msg_macd_bearish (-25) st)
      else Ok st
    else Ok st.

Definition bollinger_rule (df : DataFrame) (st : Score) : result Score :=
  current_price <- iloc (col_close df) (-1) ;;
  lower <- (s <- col (bb_lower df) ;; iloc s (-1)) ;;
  if fltb current_price lower then
    Ok (fire msg_below_lower 15 st)
  else
    upper <- (s <- col (bb_upper df) ;; iloc s (-1)) ;;
    if fgtb current_price upper then
      Ok (fire msg_above_upper (-15) st)
    else Ok st.

Definition divergence_rule (self : OrderPointAnalyzer) (st : Score)
  : result Score :=
  divergence <- detect_divergence self ;;
  match divergence with
  | Some d =>
      if bullish d then
        Ok (fire msg_bullish_divergence 20 st)
      else if bearish d then
        Ok (fire msg_bearish_divergence (-20) st)
      else Ok st
  | None => Ok st
  end.

Definition classify (confidence : Z) : string :=
  if (40 <? confidence)%Z then "STRONG BUY 🟢"
  else if (20 <? confidence)%Z then "BUY 🟢"
  else if (confidence <? -40)%Z then "STRONG SELL 🔴"
  else if (confidence <? -20)%Z then "SELL 🔴"
  else "HOLD ⚪".

(** The state of the two locals after the four rules. *)
Definition score_rules (self : OrderPointAnalyzer) (df : DataFrame)
  : result Score :=
  st <- rsi_rule df {| sc_signals := []; sc_confidence := 0 |} ;;
  st <- macd_rule df st ;;
  st <- bollinger_rule df st ;;
  divergence_rule self st.

Definition generate_signal (self : OrderPointAnalyzer)
  : result (option Signal) :=
  match data self with
  | None => Ok None
  | Some df =>
      st <- score_rules self df ;;
      Ok (Some {| action := classify (sc_confidence st);
                  confidence := Z.abs (sc_confidence st);
                  signals := sc_signals st |})
  end.

(** *** calculate_entry_points *)

Record EntryPoints : Type := {
  current_price : num;
  entry_range : num * num;
  stop_loss : num;
  take_profit_1 : num;
  take_profit_2 : num;
  risk_reward_ratio : num
}.

(** [high.rolling(14).mean() - low.rolling(14).mean()] *)
Definition atr_series (df : DataFrame) : Series :=
  map2 fsub (rolling 14 mean (col_high df)) (rolling 14 mean (col_low df)).

Definition calculate_entry_points (self : OrderPointAnalyzer)
  : result (option EntryPoints) :=
  match data self with
  | None => Ok None
  | Some df =>
      current_price <- iloc (col_close df) (-1) ;;
      current_atr <- iloc (atr_series df) (-1) ;;
      let entry_low := fsub current_price (fmul current_atr (Fin (1 # 2))) in
      let entry_high := fadd current_price (fmul current_atr (Fin (1 # 2))) in
      let stop_loss := fsub current_price (fmul current_atr (of_Z 2)) in
      let risk := fsub current_price stop_loss in
      let take_profit_1 := fadd current_price (fmul risk (of_Z 2)) in
      let take_profit_2 := fadd current_price (fmul risk (of_Z 3)) in
      Ok (Some {| current_price := fround2 current_price;
                  entry_range := (fround2 entry_low, fround2 entry_high);
                  stop_loss := fround2 stop_loss;
                  take_profit_1 := fround2 take_profit_1;
                  take_profit_2 := fround2 take_profit_2;
                  risk_reward_ratio := of_Z 3 |})
  end.

(** *** The enrichment of [analyze]

    [calculate_rsi(); calculate_macd(); calculate_bollinger_bands()] with the
    default arguments. *)
Definition enrich (sqrtQ : Q -> Q) (self : OrderPointAnalyzer)
  : OrderPointAnalyzer :=
  let self := fst (calculate_rsi 14 self) in
  let self := fst (calculate_macd 12 26 9 self) in
  fst (calculate_bollinger_bands sqrtQ 20 2 self).

(** ** The specification's reading of the signal aggregator

    These definitions follow the words of the specification (section 4.4),
    not the code; [generate_signal] is compared with them below. *)

Module Spec.

Inductive Action : Type := StrongBuy | Buy | Hold | Sell | StrongSell.

(** The text that the program prints for each action. *)
Definition action_text (a : Action) : string :=
  match a with
  | StrongBuy => "STRONG BUY 🟢"
  | Buy => "BUY 🟢"
  | Hold => "HOLD ⚪"
  | Sell => "SELL 🔴"
  | StrongSell => "STRONG SELL 🔴"
  end.

(** The indicator values at the latest index, and the divergence flags. *)
Record Snapshot : Type := {
  s_rsi : num;
  s_macd : num;
  s_signal : num;
  s_macd_prev : num;
  s_signal_prev : num;
  s_close : num;
  s_lower : num;
  s_upper : num;
  s_bullish : bool;
  s_bearish : bool
}.

(** A rule yields its points and the reasons it appends. *)
Definition rsi_points (s : Snapshot) : Z * list string :=
  if fltb (s_rsi s) (of_Z 30) then (20%Z, [msg_rsi_oversold])
  else if fgtb (s_rsi s) (of_Z 70) then
    ((-20)%Z, [msg_rsi_overbought])
  else (0%Z, []).

Definition macd_points (s : Snapshot) : Z * list string :=
  if fgtb (s_macd s) (s_signal s) && fleb (s_macd_prev s) (s_signal_prev s)
  then (25%Z, [msg_macd_bullish])
  else if fltb (s_macd s) (s_signal s)
          && fgeb (s_macd_prev s) (s_signal_prev s)
  then ((-25)%Z, [msg_macd_bearish])
  else (0%Z, []).

Definition bollinger_points (s : Snapshot) : Z * list string :=
  if fltb (s_close s) (s_lower s) then
    (15%Z, [msg_below_lower])
  else if fgtb (s_close s) (s_upper s) then
    ((-15)%Z, [msg_above_upper])
  else (0%Z, []).

Definition divergence_points (s : Snapshot) : Z * list string :=
  if s_bullish s then (20%Z, [msg_bullish_divergence])
  else if s_bearish s then
    ((-20)%Z, [msg_bearish_divergence])
  else (0%Z, []).

Definition signed_score (s : Snapshot) : Z :=
  (0 + fst (rsi_points s) + fst (macd_points s)
     + fst (bollinger_points s) + fst (divergence_points s))%Z.

Definition reasons (s : Snapshot) : list string :=
  snd (rsi_points s) ++ snd (macd_points s)
    ++ snd (bollinger_points s) ++ snd (divergence_points s).

Definition classify_action (c : Z) : Action :=
  if (c >? 40)%Z then StrongBuy
  else if (c >? 20)%Z then Buy
  else if (c <? -40)%Z then StrongSell
  else if (c <? -20)%Z then Sell
  else Hold.

Definition signal (s : Snapshot) : Signal :=
  {| action := action_text (classify_action (signed_score s));
     confidence := Z.abs (signed_score s);
     signals := reasons s |}.


End Spec.

(** ** The specification's reading of the divergence detector

    Section 4.3, in its words: the latest close and RSI against those 20
    candles earlier; at least 21 candles and a defined RSI at both indices,
    otherwise no divergence. *)

Module SpecDivergence.

Definition divergence (closes rsi : Series) : Divergence :=
  let n := length closes in
  if (n <? 21)%nat then {| bullish := false; bearish := false |}
  else
    let c := nth (n - 1) closes NaN in
    let c20 := nth (n - 1 - 20) closes NaN in
    let r := nth (n - 1) rsi NaN in
    let r20 := nth (n - 1 - 20) rsi NaN in
    {| bullish := fltb c c20 && fgtb r r20;
       bearish := fgtb c c20 && fltb r r20 |}.

End SpecDivergence.

(** ** Vocabulary of the statements *)

(** The value at position [k] from the end ([k = 1] is the latest), [NaN]
    when there is none. *)
Definition from_end (s : Series) (k : nat) : num :=
  nth (length s - k) s NaN.

Definition column (c : option Series) : Series :=
  match c with Some s => s | None => [] end.

(** The table of an analyzer, empty before the fetch. *)
Definition frame (self : OrderPointAnalyzer) : DataFrame :=
  match data self with
  | Some df => df
  | None => new_frame []
  end.

(** A frame is enriched when the columns that the aggregator reads are
    present and as long as the candle list. *)
Definition enriched (df : DataFrame) : Prop :=
  let n := length (candles df) in
  exists r m s lo up,
    rsi df = Some r /\ macd df = Some m /\ macd_signal df = Some s /\
    bb_lower df = Some lo /\ bb_upper df = Some up /\
    length r = n /\ length m = n /\ length s = n /\
    length lo = n /\ length up = n.

(** What the aggregator reads from an enriched frame. *)
Definition snapshot (self : OrderPointAnalyzer) (df : DataFrame)
  : Spec.Snapshot :=
  let d := match detect_divergence self with
           | Ok (Some d) => d
           | _ => {| bullish := false; bearish := false |}
           end in
  {| Spec.s_rsi := from_end (column (rsi df)) 1;
     Spec.s_macd := from_end (column (macd df)) 1;
     Spec.s_signal := from_end (column (macd_signal df)) 1;
     Spec.s_macd_prev := from_end (column (macd df)) 2;
     Spec.s_signal_prev := from_end (column (macd_signal df)) 2;
     Spec.s_close := from_end (col_close df) 1;
     Spec.s_lower := from_end (column (bb_lower df)) 1;
     Spec.s_upper := from_end (column (bb_upper df)) 1;
     Spec.s_bullish := bullish d;
     Spec.s_bearish := bearish d |}.

(** [v] equals the least defined value of [s]: it equals a value of [s] and
    no defined value of [s] is under it.  Likewise for the greatest. *)
Definition least_of (s : Series) (v : num) : Prop :=
  (exists m, In m s /\ feqb v m = true) /\
  forall x, In x s -> is_nan x = false -> fleb v x = true.

Definition greatest_of (s : Series) (v : num) : Prop :=
  (exists m, In m s /\ feqb v m = true) /\
  forall x, In x s -> is_nan x = false -> fleb x v = true.

(** [v] is a support candidate: the low at an index [i] of
    [range(window, n - window)] that equals the least low of the slice
    [i - window : i + window].  A resistance candidate is a high that equals
    the greatest high of the slice. *)
Definition support_candidate (window : nat) (lows : Series) (v : num) : Prop :=
  exists i, (window <= i < length lows - window)%nat /\
            nth i lows NaN = v /\
            least_of (slice lows (i - window) (i + window)) v.

Definition resistance_candidate (window : nat) (highs : Series) (v : num)
  : Prop :=
  exists i, (window <= i < length highs - window)%nat /\
            nth i highs NaN = v /\
            greatest_of (slice highs (i - window) (i + window)) v.

(** [out] lists the best values among the candidates [cand], at most three,
    for the strict order [before]: best first, each value once, and every
    candidate left out comes after the three that are listed. *)
Definition best_three (before : num -> num -> bool) (cand : num -> Prop)
    (out : list num) : Prop :=
  (length out <= 3)%nat /\
  StronglySorted (fun a b => before a b = true) out /\
  (forall v, In v out -> cand v) /\
  (forall c, cand c ->
     (exists v, In v out /\ feqb c v = true) \/
     (length out = 3%nat /\ forall v, In v out -> before v c = true)).

(** What one turn of the loop of [find_support_resistance] appends to the
    support levels, and to the resistance levels. *)
Definition low_hit (window : nat) (lows : Series) (i : nat) : list num :=
  if feqb (nth i lows NaN) (smin (slice lows (i - window) (i + window)))
  then [nth i lows NaN] else [].

Definition high_hit (window : nat) (highs : Series) (i : nat) : list num :=
  if feqb (nth i highs NaN) (smax (slice highs (i - window) (i + window)))
  then [nth i highs NaN] else [].

(** Defined values, values that differ, and the strict order, as
    propositions. *)
Definition defined (v : num) : Prop := is_nan v = false.
Definition distinct (a b : num) : Prop := feqb a b = false.
Definition lt (a b : num) : Prop := fltb a b = true.

Definition nonneg (x : num) : Prop := fleb (of_Z 0) x = true.

Definition between (lo hi x : num) : Prop :=
  fleb lo x = true /\ fleb x hi = true.

(** The effect of a rule that grants [fst pr] points for the reasons
    [snd pr]. *)
Definition apply_points (pr : Z * list string) (st : Score) : Score :=
  {| sc_signals := sc_signals st ++ snd pr;
     sc_confidence := (sc_confidence st + fst pr)%Z |}.

Definition initial_score : Score := {| sc_signals := []; sc_confidence := 0 |}.

(** ** Sample inputs *)

Module Samples.

(** A candle that trades at one price, with a given high and low. *)
Definition candle (h l c : Q) : Candle :=
  {| timestamp := 0; open := Fin c; high := Fin h; low := Fin l;
     close := Fin c; volume := Fin 1 |}.

Definition flat (c : Q) : Candle := candle c c c.

Definition analyzer (df : DataFrame) : OrderPointAnalyzer :=
  {| symbol := "BTC/USDT"; timeframe := "1h"; data := Some df |}.

(** 23 closes that fall at the end. *)
Definition closes23 : list Q :=
  [100; 101; 102; 101; 100; 99; 98; 99; 100; 101; 102; 103; 104; 105; 104;
   103; 102; 101; 100; 99; 98; 97; 90].

Definition falling23_frame : DataFrame := new_frame (map flat closes23).
Definition falling23 : OrderPointAnalyzer := analyzer falling23_frame.

(** 10 closes: fewer than any default window. *)
Definition short10_frame : DataFrame :=
  new_frame (map flat [100; 101; 102; 103; 104; 105; 106; 107; 108; 109]).
Definition short10 : OrderPointAnalyzer := analyzer short10_frame.


(** 16 closes that only rise, and 16 that never move. *)
Definition rising16 : list Q :=
  [1; 2; 3; 4; 5; 6; 7; 8; 9; 10; 11; 12; 13; 14; 15; 16].

Definition still16 : Series := repeat (Fin 7) 16.

(** 34 closes: a slide, a spike at index 14, a slump and a recovery. *)
Definition closes34 : list Q :=
  [100; 99; 98; 97; 96; 95; 94; 93; 92; 91; 90; 89; 88; 90; 120; 110; 100;
   90; 80; 70; 60; 63; 66; 69; 72; 75; 78; 81; 84; 87; 90; 93; 96; 100].

Definition spike34_frame : DataFrame := new_frame (map flat closes34).
Definition spike34 : OrderPointAnalyzer := analyzer spike34_frame.

(** 20 rows with hand-set indicator columns: the latest RSI is 25, the MACD
    crosses above its signal line on the latest row, the latest close is
    under the lower band, and close and RSI diverge bullishly against the
    row at position 20 from the end. *)
Definition strongbuy20_frame : DataFrame :=
  {| candles := map flat (110 :: repeat 105 18 ++ [100]);
     rsi := Some (map Fin (20 :: repeat 50 18 ++ [25]));
     macd := Some (map Fin (repeat 0 18 ++ [-1; 1]));
     macd_signal := Some (repeat (Fin 0) 20);
     macd_histogram := Some (map Fin (repeat 0 18 ++ [-1; 1]));
     bb_upper := Some (repeat (Fin 120) 20);
     bb_middle := Some (repeat (Fin 110) 20);
     bb_lower := Some (repeat (Fin 101) 20) |}.
Definition strongbuy20 : OrderPointAnalyzer := analyzer strongbuy20_frame.


(** 14 candles that zigzag upwards, each ranging 5 around its close. *)
Definition zigzag14_frame : DataFrame :=
  new_frame (map (fun c => candle (c + 5) (c - 5) c)
               [50; 40; 52; 38; 54; 36; 56; 38; 58; 34; 60; 44; 62; 50]).
Definition zigzag14 : OrderPointAnalyzer := analyzer zigzag14_frame.

(** The first 20 closes of [closes23]. *)
Definition first20_frame : DataFrame :=
  new_frame (map flat (firstn 20 closes23)).
Definition first20 : OrderPointAnalyzer := analyzer first20_frame.

End Samples.

(** A rule takes the score from [st] to [st'] by granting [c] points: nothing
    changes when [c] is 0, and one reason is appended otherwise. *)
Definition contributes (c : Z) (st st' : Score) : Prop :=
  (c = 0%Z /\ st' = st) \/ (c <> 0%Z /\ exists msg, st' = fire msg c st).


(** ** The rest of the analyzer: volume, fetching and [analyze] *)

Definition col_volume (df : DataFrame) : Series := map volume (candles df).

(** [s.mean()] on a whole column: undefined values are left out, and the
    mean of no value is [NaN]. *)
Definition smean (s : Series) : num :=
  mean (filter (fun x => negb (is_nan x)) s).

(** *** calculate_volume_profile *)

Record VolumeProfile : Type := {
  average : num;
  current : num;
  ratio : num;
  high_volume : bool
}.

Definition calculate_volume_profile (self : OrderPointAnalyzer)
  : result (option VolumeProfile) :=
  match data self with
  | None => Ok None
  | Some df =>
      let avg_volume := smean (col_volume df) in
      current_volume <- iloc (col_volume df) (-1) ;;
      let volume_ratio := fdiv current_volume avg_volume in
      Ok (Some {| average := avg_volume;
                  current := current_volume;
                  ratio := volume_ratio;
                  high_volume := fgtb volume_ratio (Fin (3 # 2)) |})
  end.

(** *** fetch_ohlcv

    The market-data client is outside the program.  It is a function of the
    symbol, the timeframe and the limit; [None] stands for an exception
    anywhere in the [try] block (the request, the construction of the table,
    the conversion of the timestamps).  [self.exchange] itself is [None] when
    [_initialize_exchange] failed, and the call on it then raises inside the
    same [try]. *)
Definition Exchange : Type := string -> string -> Z -> option (list Candle).

Definition fetch_ohlcv (exchange : option Exchange) (limit : Z)
    (self : OrderPointAnalyzer) : OrderPointAnalyzer * option DataFrame :=
  match exchange with
  | None => (self, None)
  | Some client =>
      match client (symbol self) (timeframe self) limit with
      | None => (self, None)
      | Some ohlcv =>
          let df := new_frame ohlcv in
          (with_data self df, Some df)
      end
  end.

(** *** analyze

    What [analyze] returns or raises, and the analyzer it leaves.  The text it
    prints is not modelled; the first [print] that reads a result subscripts
    it, which raises [TypeError] on [None]. *)
Record Analysis : Type := {
  an_signal : Signal;
  an_entry_points : EntryPoints;
  an_support_resistance : Levels;
  an_volume : VolumeProfile
}.

Inductive failure : Type :=
| Raised (e : exn)
| TypeError.

Definition analyze (sqrtQ : Q -> Q) (exchange : option Exchange)
    (self : OrderPointAnalyzer) : OrderPointAnalyzer * (Analysis + failure) :=
  let self := fst (fetch_ohlcv exchange 500 self) in
  let self := fst (calculate_rsi 14 self) in
  let self := fst (calculate_macd 12 26 9 self) in
  let self := fst (calculate_bollinger_bands sqrtQ 20 2 self) in
  match generate_signal self with
  | Raise e => (self, inr (Raised e))
  | Ok signal =>
      match calculate_entry_points self with
      | Raise e => (self, inr (Raised e))
      | Ok entry_points =>
          let support_resistance := find_support_resistance 20 self in
          match calculate_volume_profile self with
          | Raise e => (self, inr (Raised e))
          | Ok volume_info =>
              match signal, entry_points, support_resistance, volume_info with
              | Some sg, Some ep, Some sr, Some vi =>
                  (self, inl {| an_signal := sg;
                                an_entry_points := ep;
                                an_support_resistance := sr;
                                an_volume := vi |})
              | _, _, _, _ => (self, inr TypeError)
              end
          end
      end
  end.





(** [x] is exactly zero. *)
Definition zero (x : num) : Prop := x = Fin 0.

(** [x] is a finite value between [lo] and [hi]. *)
Definition within (lo hi : Q) (x : num) : Prop :=
  exists q, x = Fin q /\ lo <= q <= hi.





(** * Properties *)

(** ** Order and arithmetic of extended numbers *)

Module NumFacts.

Ltac qcases :=
  repeat match goal with
  | H : context [(?a ?= ?b)%Q] |- _ => destruct (Qcompare_spec a b)
  | |- context [(?a ?= ?b)%Q] => destruct (Qcompare_spec a b)
  | H : context [Qeq_bool ?a ?b] |- _ =>
      let E := fresh "E" in
      destruct (Qeq_bool a b) eqn:E;
      [apply Qeq_bool_iff in E | apply Qeq_bool_neq in E]
  | |- context [Qeq_bool ?a ?b] =>
      let E := fresh "E" in
      destruct (Qeq_bool a b) eqn:E;
      [apply Qeq_bool_iff in E | apply Qeq_bool_neq in E]
  end.

(** Case analysis on numbers, then on the rational comparisons met. *)
Ltac num_cases :=
  repeat match goal with x : num |- _ => destruct x end;
  cbn in *; try discriminate; try reflexivity; qcases;
  cbn in *; try discriminate; try reflexivity; try lra; try tauto.

Lemma fltb_nan_l (x : num) : fltb NaN x = false.
Proof. reflexivity. Qed.

Lemma fltb_nan_r (x : num) : fltb x NaN = false.
Proof. destruct x; reflexivity. Qed.

Lemma feqb_nan_l (x : num) : feqb NaN x = false.
Proof. reflexivity. Qed.

Lemma feqb_nan_r (x : num) : feqb x NaN = false.
Proof. destruct x; reflexivity. Qed.

Lemma fleb_nan_l (x : num) : fleb NaN x = false.
Proof. reflexivity. Qed.

Lemma fleb_nan_r (x : num) : fleb x NaN = false.
Proof. destruct x; reflexivity. Qed.

Lemma fltb_not_nan (x y : num) :
  fltb x y = true -> is_nan x = false /\ is_nan y = false.
Proof. intros H; num_cases; auto. Qed.

Lemma feqb_not_nan (x y : num) :
  feqb x y = true -> is_nan x = false /\ is_nan y = false.
Proof. intros H; num_cases; auto. Qed.

Lemma fleb_not_nan (x y : num) :
  fleb x y = true -> is_nan x = false /\ is_nan y = false.
Proof. intros H; num_cases; auto. Qed.

Lemma feqb_refl (x : num) : is_nan x = false -> feqb x x = true.
Proof. intros H; num_cases. Qed.

Lemma feqb_sym (x y : num) : feqb x y = feqb y x.
Proof.
  destruct x, y; cbn; try reflexivity.
  destruct (Qeq_bool q q0) eqn:E1, (Qeq_bool q0 q) eqn:E2; try reflexivity.
  - apply Qeq_bool_iff in E1. apply Qeq_bool_neq in E2. symmetry in E1. tauto.
  - apply Qeq_bool_iff in E2. apply Qeq_bool_neq in E1. symmetry in E2. tauto.
Qed.

Lemma feqb_trans (x y z : num) :
  feqb x y = true -> feqb y z = true -> feqb x z = true.
Proof. intros H1 H2; num_cases. Qed.

Lemma fltb_irrefl (x : num) : fltb x x = false.
Proof. num_cases. Qed.

Lemma fltb_trans (x y z : num) :
  fltb x y = true -> fltb y z = true -> fltb x z = true.
Proof. intros H1 H2; num_cases. Qed.

Lemma fltb_asym (x y : num) : fltb x y = true -> fltb y x = false.
Proof. intros H; num_cases. Qed.

Lemma fltb_not_feqb (x y : num) : fltb x y = true -> feqb x y = false.
Proof. intros H; num_cases. Qed.

Lemma fltb_feqb_l (x y z : num) :
  feqb x y = true -> fltb x z = fltb y z.
Proof. intros H; num_cases. Qed.

Lemma fltb_feqb_r (x y z : num) :
  feqb x y = true -> fltb z x = fltb z y.
Proof. intros H; num_cases. Qed.

Lemma trichotomy (x y : num) :
  is_nan x = false -> is_nan y = false ->
  fltb x y = false -> feqb x y = false -> fltb y x = true.
Proof. intros Hx Hy H1 H2; num_cases. Qed.

Lemma fleb_fltb_false (x y : num) :
  is_nan x = false -> is_nan y = false -> fltb y x = false -> fleb x y = true.
Proof. unfold fleb; intros Hx Hy H; num_cases. Qed.

Lemma fleb_refl (x : num) : is_nan x = false -> fleb x x = true.
Proof. unfold fleb; intros H; num_cases. Qed.

Lemma fleb_trans (x y z : num) :
  fleb x y = true -> fleb y z = true -> fleb x z = true.
Proof.
  unfold fleb. intros H1 H2.
  apply orb_true_iff in H1. apply orb_true_iff in H2. apply orb_true_iff.
  destruct H1 as [H1|H1], H2 as [H2|H2].
  - left. now apply (fltb_trans x y z).
  - left. now rewrite <- (fltb_feqb_r y z x H2).
  - left. now rewrite (fltb_feqb_l x y z H1).
  - right. now apply (feqb_trans x y z).
Qed.

Lemma fleb_antisym (x y : num) :
  fleb x y = true -> fleb y x = true -> feqb x y = true.
Proof.
  unfold fleb. intros H1 H2.
  apply orb_true_iff in H1. apply orb_true_iff in H2.
  destruct H1 as [H1|H1]; [|exact H1].
  destruct H2 as [H2|H2]; [|now rewrite feqb_sym].
  now rewrite (fltb_asym x y H1) in H2.
Qed.

Lemma fleb_feqb_l (x y z : num) : feqb x y = true -> fleb x z = fleb y z.
Proof.
  intros H. unfold fleb. rewrite (fltb_feqb_l x y z H). f_equal.
  destruct (feqb y z) eqn:E.
  - now apply (feqb_trans x y z).
  - destruct (feqb x z) eqn:E'; [|reflexivity].
    rewrite feqb_sym in H. now rewrite (feqb_trans y x z H E') in E.
Qed.

Lemma fleb_feqb_r (x y z : num) : feqb x y = true -> fleb z x = fleb z y.
Proof.
  intros H. unfold fleb. rewrite (fltb_feqb_r x y z H). f_equal.
  destruct (feqb z y) eqn:E.
  - rewrite feqb_sym in H. now apply (feqb_trans z y x).
  - destruct (feqb z x) eqn:E'; [|reflexivity].
    now rewrite (feqb_trans z x y E' H) in E.
Qed.

(** Values in lowest terms. *)

Lemma fin_eq (a b : Q) : a == b -> fin a = fin b.
Proof. intros H. unfold fin. f_equal. now apply Qred_complete. Qed.

Lemma fin_red (a : Q) : fin (Qred a) = fin a.
Proof. apply fin_eq, Qred_correct. Qed.

Lemma fadd_fin (a b : Q) : fadd (Fin a) (Fin b) = Fin (Qred (a + b)).
Proof. reflexivity. Qed.

Lemma fsub_fin (a b : Q) : fsub (Fin a) (Fin b) = Fin (Qred (a - b)).
Proof. reflexivity. Qed.

Lemma fmul_fin (a b : Q) : fmul (Fin a) (Fin b) = Fin (Qred (a * b)).
Proof. reflexivity. Qed.

End NumFacts.

(** ** Series: lengths, entries and positional reads *)

Module SeriesFacts.

Lemma map2_length (f : num -> num -> num) (s t : Series) :
  length (map2 f s t) = Nat.min (length s) (length t).
Proof.
  revert t; induction s as [|x s IH]; intros [|y t]; cbn; auto.
Qed.

Lemma map2_nth_error (f : num -> num -> num) (s t : Series) (i : nat) (v : num) :
  nth_error (map2 f s t) i = Some v <->
  exists a b, nth_error s i = Some a /\ nth_error t i = Some b /\ v = f a b.
Proof.
  revert t i; induction s as [|x s IH]; intros [|y t] [|i]; cbn;
    try (split; [discriminate | intros (a & b & Ha & Hb & _); discriminate]).
  - split.
    + intros [= <-]. now exists x, y.
    + intros (a & b & [= <-] & [= <-] & ->). reflexivity.
  - apply IH.
Qed.

Lemma map2_nth (f : num -> num -> num) (s t : Series) (i : nat) :
  (i < length s)%nat -> (i < length t)%nat ->
  nth i (map2 f s t) NaN = f (nth i s NaN) (nth i t NaN).
Proof.
  revert t i; induction s as [|x s IH]; intros [|y t] [|i]; cbn; intros;
    try lia; auto.
  apply IH; lia.
Qed.

Lemma rolling_length (p : nat) (agg : Series -> num) (s : Series) :
  length (rolling p agg s) = length s.
Proof. unfold rolling. now rewrite length_map, length_seq. Qed.

Lemma rolling_nth_error (p : nat) (agg : Series -> num) (s : Series)
    (i : nat) (v : num) :
  nth_error (rolling p agg s) i = Some v <->
  (i < length s)%nat /\
  v = if (S i <? p)%nat then NaN else agg (slice s (S i - p) (S i)).
Proof.
  unfold rolling. split.
  - intros H. assert (Hi : (i < length s)%nat).
    { assert (Hn : nth_error (map (fun i =>
                 if (S i <? p)%nat then NaN
                 else agg (slice s (S i - p) (S i))) (seq 0 (length s))) i
               <> None) by congruence.
      apply nth_error_Some in Hn.
      now rewrite length_map, length_seq in Hn. }
    split; [exact Hi|].
    rewrite nth_error_map, nth_error_seq in H.
    destruct (Nat.ltb_spec i (length s)); [|lia].
    cbn in H. now injection H as <-.
  - intros [Hi ->].
    rewrite nth_error_map, nth_error_seq.
    destruct (Nat.ltb_spec i (length s)); [|lia]. reflexivity.
Qed.

Lemma In_firstn (A : Type) (n : nat) (l : list A) (x : A) :
  In x (firstn n l) -> In x l.
Proof.
  revert l; induction n as [|n IH]; intros [|y l]; cbn; try tauto.
  intros [H|H]; auto.
Qed.


Lemma slice_incl (s : Series) (a b : nat) (x : num) :
  In x (slice s a b) -> In x s.
Proof.
  unfold slice. intros H. apply In_firstn in H.
  rewrite <- (firstn_skipn a s). apply in_or_app. now right.
Qed.

Lemma slice_length (s : Series) (a b : nat) :
  (a <= b)%nat -> (b <= length s)%nat -> length (slice s a b) = (b - a)%nat.
Proof.
  intros Hab Hb. unfold slice. rewrite length_firstn, length_skipn. lia.
Qed.

Lemma diff_length (s : Series) : length (diff s) = length s.
Proof.
  destruct s as [|x t]; cbn; auto.
  rewrite map2_length. cbn. f_equal. lia.
Qed.

Lemma where_length (c : num -> bool) (o : num) (s : Series) :
  length (where_ c o s) = length s.
Proof. apply length_map. Qed.

Lemma ewm_from_length (alpha : Q) (prev : num) (s : Series) :
  length (ewm_from alpha prev s) = length s.
Proof. revert prev; induction s; cbn; auto. Qed.

Lemma ewm_mean_length (span : positive) (s : Series) :
  length (ewm_mean span s) = length s.
Proof. destruct s; cbn; auto using ewm_from_length. Qed.

(** Reading from the end: [s.iloc[-k]] exists exactly on series of at
    least [k] entries. *)
Lemma iloc_from_end (s : Series) (k : nat) :
  (1 <= k <= length s)%nat ->
  iloc s (- Z.of_nat k) = Ok (from_end s k).
Proof.
  intros Hk. unfold iloc, from_end.
  destruct (Z.ltb_spec (- Z.of_nat k) 0); [|lia].
  destruct (Z.leb_spec 0 (Z.of_nat (length s) + - Z.of_nat k)); [|lia].
  destruct (Z.ltb_spec (Z.of_nat (length s) + - Z.of_nat k)
                       (Z.of_nat (length s))); [|lia].
  cbn. do 2 f_equal. lia.
Qed.

Lemma iloc_too_short (s : Series) (k : nat) :
  (length s < k)%nat -> iloc s (- Z.of_nat k) = Raise IndexError.
Proof.
  intros Hk. unfold iloc.
  destruct (Z.ltb_spec (- Z.of_nat k) 0); [|lia].
  destruct (Z.leb_spec 0 (Z.of_nat (length s) + - Z.of_nat k)); [lia|].
  reflexivity.
Qed.

Lemma iloc_Ok_from_end (s : Series) (k : nat) (v : num) :
  (1 <= k)%nat -> iloc s (- Z.of_nat k) = Ok v ->
  (k <= length s)%nat /\ v = from_end s k.
Proof.
  intros Hk H. destruct (Nat.le_gt_cases k (length s)) as [Hle|Hgt].
  - rewrite iloc_from_end in H by lia. now injection H as <-.
  - rewrite iloc_too_short in H by lia. discriminate.
Qed.

Lemma from_end_nth_error (s : Series) (k : nat) :
  (1 <= k <= length s)%nat ->
  nth_error s (length s - k) = Some (from_end s k).
Proof.
  intros Hk. unfold from_end. apply nth_error_nth'. lia.
Qed.

End SeriesFacts.

(** ** Non-negative numbers and the range of the RSI formula *)

Module RangeFacts.
Import NumFacts.

Lemma fltb_fin (a b : Q) : fltb (Fin a) (Fin b) = true <-> a < b.
Proof.
  cbn. destruct (Qcompare_spec a b); split; intros; try discriminate;
    try reflexivity; lra.
Qed.

Lemma fleb_fin (a b : Q) : fleb (Fin a) (Fin b) = true <-> a <= b.
Proof.
  unfold fleb. cbn. destruct (Qcompare_spec a b) as [E|L|G]; cbn.
  - split; intros; [lra | now apply Qeq_bool_iff].
  - split; intros; [lra | reflexivity].
  - split.
    + intros H. apply Qeq_bool_iff in H. lra.
    + intros H. lra.
Qed.

Lemma nonneg_fin (q : Q) : nonneg (Fin q) <-> 0 <= q.
Proof. unfold nonneg, of_Z. apply fleb_fin. Qed.

Lemma nonneg_cases (x : num) :
  nonneg x -> x = PInf \/ exists q, x = Fin q /\ 0 <= q.
Proof.
  destruct x; unfold nonneg; cbn; try discriminate; auto.
  intros H. right. exists q. split; [reflexivity|]. now apply nonneg_fin.
Qed.

Lemma nonneg_fadd (x y : num) : nonneg x -> nonneg y -> nonneg (fadd x y).
Proof.
  intros Hx Hy.
  destruct (nonneg_cases Hx) as [->|(a & -> & Ha)];
    destruct (nonneg_cases Hy) as [->|(b & -> & Hb)]; cbn; try reflexivity.
  apply nonneg_fin. rewrite Qred_correct. lra.
Qed.

Lemma nonneg_fsum (w : Series) : Forall nonneg w -> nonneg (fsum w).
Proof.
  induction 1 as [|x w Hx _ IH]; cbn.
  - reflexivity.
  - now apply nonneg_fadd.
Qed.

Lemma Qdiv_nonneg (a b : Q) : 0 <= a -> 0 < b -> 0 <= a / b.
Proof. intros Ha Hb. apply Qle_shift_div_l; [exact Hb | lra]. Qed.

Lemma fdiv_fin (a b : Q) : ~ b == 0 -> fdiv (Fin a) (Fin b) = fin (a / b).
Proof.
  intros H. cbn. destruct (Qeq_bool b 0) eqn:E; [|reflexivity].
  apply Qeq_bool_iff in E. contradiction.
Qed.

(** A quotient of non-negative numbers is non-negative or undefined. *)
Lemma nonneg_fdiv (x y : num) :
  nonneg x -> nonneg y -> nonneg (fdiv x y) \/ fdiv x y = NaN.
Proof.
  intros Hx Hy.
  destruct (nonneg_cases Hx) as [->|(a & -> & Ha)];
    destruct (nonneg_cases Hy) as [->|(b & -> & Hb)]; cbn.
  - now right.
  - left. destruct (Qeq_bool b 0) eqn:E; cbn; [reflexivity|].
    apply Qeq_bool_neq in E.
    destruct (Qcompare_spec b 0); cbn; try reflexivity; lra.
  - left. reflexivity.
  - destruct (Qeq_bool b 0) eqn:E.
    + destruct (Qcompare_spec a 0); cbn;
        [now right | lra | left; reflexivity].
    + apply Qeq_bool_neq in E. left. apply nonneg_fin.
      rewrite Qred_correct. apply Qdiv_nonneg; lra.
Qed.

Lemma of_nat_nonneg (n : nat) : nonneg (of_nat n).
Proof.
  apply nonneg_fin. unfold Qle. cbn. lia.
Qed.

Lemma nonneg_mean (w : Series) :
  Forall nonneg w -> nonneg (mean w) \/ mean w = NaN.
Proof.
  intros H. apply nonneg_fdiv; [now apply nonneg_fsum | apply of_nat_nonneg].
Qed.

(** [100 - 100 / (1 + rs)] stays in [0, 100] for a non-negative [rs]. *)
Lemma rsi_of_rs_range (rs : num) :
  nonneg rs -> between (of_Z 0) (of_Z 100) (rsi_of_rs rs).
Proof.
  intros H. destruct (nonneg_cases H) as [->|(q & -> & Hq)].
  - split; reflexivity.
  - unfold rsi_of_rs, of_Z.
    change (fadd (Fin (1 # 1)) (Fin q)) with (Fin (Qred ((1 # 1) + q))).
    rewrite fdiv_fin by (rewrite Qred_correct; lra).
    unfold fin. cbn [fsub]. unfold fin.
    assert (H0 : 0 <= (100 # 1) / (1 + q)) by (apply Qdiv_nonneg; lra).
    assert (H1 : (100 # 1) / (1 + q) <= 100 # 1).
    { apply Qle_shift_div_r; lra. }
    split; apply fleb_fin; rewrite !Qred_correct; lra.
Qed.

Lemma rsi_of_rs_nan : rsi_of_rs NaN = NaN.
Proof. reflexivity. Qed.

Lemma gain_entry_nonneg (d : num) :
  nonneg (if fgtb d (of_Z 0) then d else of_Z 0).
Proof.
  destruct (fgtb d (of_Z 0)) eqn:E.
  - unfold nonneg, fleb, fgtb in *. now rewrite E.
  - reflexivity.
Qed.

Lemma loss_entry_nonneg (d : num) :
  nonneg (fneg (if fltb d (of_Z 0) then d else of_Z 0)).
Proof.
  destruct (fltb d (of_Z 0)) eqn:E.
  - destruct d; cbn in E; try discriminate.
    + reflexivity.
    + apply nonneg_fin. rewrite Qred_correct.
      apply (proj1 (fltb_fin q (0 # 1))) in E. lra.
  - reflexivity.
Qed.

Lemma Forall_slice (P : num -> Prop) (s : Series) (a b : nat) :
  Forall P s -> Forall P (slice s a b).
Proof.
  intros H. apply Forall_forall. intros x Hx.
  apply SeriesFacts.slice_incl in Hx.
  now apply (proj1 (Forall_forall P s) H).
Qed.

(** Every entry of a rolling mean over non-negative values is non-negative
    or undefined. *)
Lemma rolling_mean_nonneg (p : nat) (s : Series) (i : nat) (v : num) :
  Forall nonneg s ->
  nth_error (rolling p mean s) i = Some v -> nonneg v \/ v = NaN.
Proof.
  intros Hs H. apply SeriesFacts.rolling_nth_error in H as [_ ->].
  destruct (S i <? p)%nat; auto.
  apply nonneg_mean. now apply Forall_slice.
Qed.

Lemma rsi_gain_nonneg (p : nat) (closes : Series) (i : nat) (v : num) :
  nth_error (rsi_gain p closes) i = Some v -> nonneg v \/ v = NaN.
Proof.
  apply rolling_mean_nonneg. unfold where_.
  apply Forall_forall. intros x Hx. apply in_map_iff in Hx as (d & <- & _).
  apply gain_entry_nonneg.
Qed.

Lemma rsi_loss_nonneg (p : nat) (closes : Series) (i : nat) (v : num) :
  nth_error (rsi_loss p closes) i = Some v -> nonneg v \/ v = NaN.
Proof.
  apply rolling_mean_nonneg. unfold where_. rewrite map_map.
  apply Forall_forall. intros x Hx. apply in_map_iff in Hx as (d & <- & _).
  apply loss_entry_nonneg.
Qed.

(** An entry of the RSI series is the formula applied to the quotient of the
    average gain and the average loss at that index. *)
Lemma rsi_series_entry (p : nat) (closes : Series) (i : nat) (v : num) :
  nth_error (rsi_series p closes) i = Some v <->
  exists g l, nth_error (rsi_gain p closes) i = Some g /\
              nth_error (rsi_loss p closes) i = Some l /\
              v = rsi_of_rs (fdiv g l).
Proof.
  unfold rsi_series. rewrite nth_error_map. split.
  - destruct (nth_error (map2 fdiv _ _) i) as [rs|] eqn:E; cbn; [|discriminate].
    intros [= <-]. apply SeriesFacts.map2_nth_error in E as (g & l & Hg & Hl & ->).
    now exists g, l.
  - intros (g & l & Hg & Hl & ->).
    assert (E : nth_error (map2 fdiv (rsi_gain p closes) (rsi_loss p closes)) i
                = Some (fdiv g l)).
    { apply SeriesFacts.map2_nth_error. now exists g, l. }
    now rewrite E.
Qed.

Lemma rsi_entry_range (p : nat) (closes : Series) (i : nat) (v : num) :
  nth_error (rsi_series p closes) i = Some v ->
  is_nan v = false -> between (of_Z 0) (of_Z 100) v.
Proof.
  intros H Hv. apply rsi_series_entry in H as (g & l & Hg & Hl & ->).
  apply rsi_gain_nonneg in Hg. apply rsi_loss_nonneg in Hl.
  destruct Hg as [Hg| ->]; [|discriminate].
  destruct Hl as [Hl| ->].
  - destruct (nonneg_fdiv Hg Hl) as [Hq|Hq].
    + now apply rsi_of_rs_range.
    + rewrite Hq in Hv. discriminate.
  - destruct g; discriminate.
Qed.

End RangeFacts.

(** ** The RSI at a window without losses *)

Module RsiEdgeFacts.
Import NumFacts RangeFacts.

Lemma feqb_zero (x : num) :
  feqb x (of_Z 0) = true -> exists q, x = Fin q /\ q == 0.
Proof.
  unfold of_Z. destruct x; intros H; try discriminate H.
  apply Qeq_bool_iff in H. now exists q.
Qed.

Lemma fgtb_zero (x : num) :
  fgtb x (of_Z 0) = true -> x = PInf \/ exists q, x = Fin q /\ 0 < q.
Proof.
  unfold fgtb, of_Z. destruct x; intros H; try discriminate H; auto.
  right. exists q. split; [reflexivity|]. now apply fltb_fin.
Qed.

Lemma rs_no_loss_some_gain (g l : num) :
  feqb l (of_Z 0) = true -> fgtb g (of_Z 0) = true -> fdiv g l = PInf.
Proof.
  intros Hl Hg. apply feqb_zero in Hl as (b & -> & Hb).
  assert (E : Qeq_bool b 0 = true) by now apply Qeq_bool_iff.
  apply fgtb_zero in Hg as [->|(a & -> & Ha)]; cbn; rewrite E.
  - reflexivity.
  - destruct (Qcompare_spec a 0); try reflexivity; lra.
Qed.

Lemma rs_no_loss_no_gain (g l : num) :
  feqb l (of_Z 0) = true -> feqb g (of_Z 0) = true -> fdiv g l = NaN.
Proof.
  intros Hl Hg. apply feqb_zero in Hl as (b & -> & Hb).
  apply feqb_zero in Hg as (a & -> & Ha).
  assert (E : Qeq_bool b 0 = true) by now apply Qeq_bool_iff.
  cbn. rewrite E. destruct (Qcompare_spec a 0); try reflexivity; lra.
Qed.

Lemma rsi_of_rs_pinf : rsi_of_rs PInf = Fin 100.
Proof. reflexivity. Qed.

End RsiEdgeFacts.

(** ** Bollinger bands *)

Module BollingerFacts.
Import NumFacts RangeFacts SeriesFacts.

Section WithSqrt.

Variable sqrtQ : Q -> Q.
Hypothesis sqrtQ_nonneg : forall q, 0 <= sqrtQ q.



End WithSqrt.



(** The three series, entry by entry. *)
Lemma bollinger_entry (sqrtQ : Q -> Q) (p : nat) (k : Q) (closes : Series)
    (i : nat) :
  (i < length closes)%nat ->
  let w := slice closes (S i - p) (S i) in
  let m := if (S i <? p)%nat then NaN else mean w in
  let sd := if (S i <? p)%nat then NaN else std sqrtQ w in
  let '(upper, sma, lower) := bollinger_series sqrtQ p k closes in
  nth_error upper i = Some (fadd m (fmul sd (Fin k))) /\
  nth_error sma i = Some m /\
  nth_error lower i = Some (fsub m (fmul sd (Fin k))).
Proof.
  intros Hi w m sd. unfold bollinger_series.
  assert (Hm : nth_error (rolling p mean closes) i = Some m).
  { apply rolling_nth_error. now split. }
  assert (Hs : nth_error (map (fun s => fmul s (Fin k))
                              (rolling p (std sqrtQ) closes)) i
               = Some (fmul sd (Fin k))).
  { assert (Hr : nth_error (rolling p (std sqrtQ) closes) i = Some sd)
      by (apply rolling_nth_error; now split).
    now rewrite nth_error_map, Hr. }
  repeat split.
  - apply map2_nth_error. eauto.
  - exact Hm.
  - apply map2_nth_error. eauto.
Qed.

Lemma bollinger_lengths (sqrtQ : Q -> Q) (p : nat) (k : Q) (closes : Series) :
  let '(upper, sma, lower) := bollinger_series sqrtQ p k closes in
  length upper = length closes /\ length sma = length closes /\
  length lower = length closes.
Proof.
  unfold bollinger_series.
  rewrite !map2_length, !length_map, !rolling_length. lia.
Qed.

End BollingerFacts.

(** ** Undefined means and the two bands *)

Module BandNaNFacts.
Import NumFacts SeriesFacts.

Lemma fsum_cons (x : num) (w : Series) : fsum (x :: w) = fadd x (fsum w).
Proof. reflexivity. Qed.

Lemma fsum_nan (w : Series) : In NaN w -> fsum w = NaN.
Proof.
  induction w as [|x w IH]; [intros []|].
  rewrite fsum_cons. intros [->|H]; [reflexivity|].
  rewrite (IH H). destruct x; reflexivity.
Qed.

Lemma fadd_inf (x y : num) (c : num) :
  c = PInf \/ c = NInf -> fadd x y = c -> x = c \/ y = c.
Proof.
  intros [-> | ->]; destruct x, y; cbn; intros H; try discriminate H; auto.
Qed.

Lemma fsum_inf (w : Series) (c : num) :
  c = PInf \/ c = NInf -> fsum w = c -> In c w.
Proof.
  intros Hc. induction w as [|x w IH].
  - destruct Hc as [-> | ->]; discriminate.
  - rewrite fsum_cons. intros H.
    destruct (fadd_inf x (fsum w) Hc H) as [H'|H']; [now left | right; auto].
Qed.

Lemma mean_inf (w : Series) (c : num) :
  c = PInf \/ c = NInf -> mean w = c -> fsum w = c.
Proof.
  unfold mean, of_nat, of_Z. intros Hc. destruct w as [|x w].
  - destruct Hc as [-> | ->]; discriminate.
  - cbn [length]. rewrite Nat2Z.inj_succ, <- Zpos_P_of_succ_nat.
    destruct (fsum (x :: w)); destruct Hc as [-> | ->]; cbn;
      intros H; try discriminate H; reflexivity.
Qed.

(** A window whose mean is infinite has no standard deviation. *)
Lemma std_of_infinite_mean (sqrtQ : Q -> Q) (w : Series) (c : num) :
  c = PInf \/ c = NInf -> mean w = c -> std sqrtQ w = NaN.
Proof.
  intros Hc Hm. unfold std. rewrite Hm.
  assert (Hin : In c w) by (apply fsum_inf, mean_inf; assumption).
  rewrite fsum_nan; [reflexivity|].
  apply in_map_iff. exists c. split; [|exact Hin].
  destruct Hc as [-> | ->]; reflexivity.
Qed.

(** The upper and the lower band of a window are undefined together. *)
Lemma bands_nan_together (sqrtQ : Q -> Q) (w : Series) (k : Q) :
  let t := fmul (std sqrtQ w) (Fin k) in
  is_nan (fadd (mean w) t) = is_nan (fsub (mean w) t).
Proof.
  intros t. destruct (mean w) eqn:Hm.
  - reflexivity.
  - subst t. rewrite (@std_of_infinite_mean sqrtQ w NInf); auto.
  - subst t. rewrite (@std_of_infinite_mean sqrtQ w PInf); auto.
  - destruct t; reflexivity.
Qed.

End BandNaNFacts.

(** ** The divergence test and the scoring rules, read by read *)

Module RuleFacts.
Import NumFacts SeriesFacts.

Lemma iloc_last (s : Series) :
  (1 <= length s)%nat -> iloc s (-1) = Ok (from_end s 1).
Proof. intros H. apply (@iloc_from_end s 1). lia. Qed.

Lemma iloc_prev (s : Series) :
  (2 <= length s)%nat -> iloc s (-2) = Ok (from_end s 2).
Proof. intros H. apply (@iloc_from_end s 2). lia. Qed.

Lemma iloc_back20 (s : Series) :
  (20 <= length s)%nat -> iloc s (-20) = Ok (from_end s 20).
Proof. intros H. apply (@iloc_from_end s 20). lia. Qed.

Lemma iloc_back20_short (s : Series) :
  (length s < 20)%nat -> iloc s (-20) = Raise IndexError.
Proof. intros H. now apply (@iloc_too_short s 20). Qed.

Lemma iloc_prev_short (s : Series) :
  (length s < 2)%nat -> iloc s (-2) = Raise IndexError.
Proof. intros H. now apply (@iloc_too_short s 2). Qed.

Lemma iloc_raises (s : Series) (i : Z) (e : exn) :
  iloc s i = Raise e -> e = IndexError.
Proof.
  unfold iloc. destruct (_ && _); [discriminate|]. now intros [= <-].
Qed.

Lemma cmp_at_long (op : num -> num -> bool) (s : Series) :
  (20 <= length s)%nat ->
  cmp_at op s (-1) (-20) = Ok (op (from_end s 1) (from_end s 20)).
Proof.
  intros H. unfold cmp_at.
  rewrite iloc_last by lia. rewrite iloc_back20 by lia. reflexivity.
Qed.

Lemma cmp_at_short (op : num -> num -> bool) (s : Series) :
  (length s < 20)%nat -> cmp_at op s (-1) (-20) = Raise IndexError.
Proof.
  intros H. unfold cmp_at.
  destruct (iloc s (-1)) as [a|e] eqn:E; cbn.
  - now rewrite iloc_back20_short.
  - now rewrite (iloc_raises _ _ E).
Qed.

(** With at least 20 rows the test compares the latest row with the row at
    position 20 from the end. *)
Lemma detect_divergence_long (self : OrderPointAnalyzer) (df : DataFrame)
    (r : Series) :
  data self = Some df -> rsi df = Some r ->
  length r = length (candles df) -> (20 <= length (candles df))%nat ->
  detect_divergence self =
  Ok (Some {| bullish := fltb (from_end (col_close df) 1)
                              (from_end (col_close df) 20)
                         && fgtb (from_end r 1) (from_end r 20);
              bearish := fgtb (from_end (col_close df) 1)
                              (from_end (col_close df) 20)
                         && fltb (from_end r 1) (from_end r 20) |}).
Proof.
  intros Hd Hr Hlen Hn. unfold detect_divergence. rewrite Hd, Hr.
  assert (Hc : (20 <= length (col_close df))%nat)
    by (unfold col_close; now rewrite length_map).
  rewrite !cmp_at_long by lia. reflexivity.
Qed.

(** With fewer than 20 rows the read at position -20 fails. *)
Lemma detect_divergence_short (self : OrderPointAnalyzer) (df : DataFrame)
    (r : Series) :
  data self = Some df -> rsi df = Some r ->
  (length (candles df) < 20)%nat ->
  detect_divergence self = Raise IndexError.
Proof.
  intros Hd Hr Hn. unfold detect_divergence. rewrite Hd, Hr.
  rewrite cmp_at_short; [reflexivity|].
  unfold col_close. now rewrite length_map.
Qed.

Lemma rsi_rule_read (df : DataFrame) (st : Score) (s : Series) (r : num) :
  rsi df = Some s -> iloc s (-1) = Ok r ->
  rsi_rule df st =
  Ok (if fltb r (of_Z 30) then fire msg_rsi_oversold 20 st
      else if fgtb r (of_Z 70) then fire msg_rsi_overbought (-20) st
      else st).
Proof.
  intros Hs Hr. unfold rsi_rule. rewrite Hs. cbn [bind col]. rewrite Hr. cbn [bind col].
  destruct (fltb r (of_Z 30)); [reflexivity|].
  destruct (fgtb r (of_Z 70)); reflexivity.
Qed.

Lemma cmp_cols_read (op : num -> num -> bool) (a b : option Series)
    (sa sb : Series) (i : Z) (x y : num) :
  a = Some sa -> b = Some sb -> iloc sa i = Ok x -> iloc sb i = Ok y ->
  cmp_cols op a b i = Ok (op x y).
Proof.
  intros -> -> Hx Hy. unfold cmp_cols. cbn [bind col]. rewrite Hx. cbn [bind col]. now rewrite Hy.
Qed.

(** The MACD rule when the latest values do not cross: the previous row is
    not read. *)
Lemma macd_rule_level (df : DataFrame) (st : Score) (m s : Series) (x y : num) :
  macd df = Some m -> macd_signal df = Some s ->
  iloc m (-1) = Ok x -> iloc s (-1) = Ok y ->
  fgtb x y = false -> fltb x y = false ->
  macd_rule df st = Ok st.
Proof.
  intros Hm Hs Hx Hy H1 H2. unfold macd_rule.
  rewrite (cmp_cols_read fgtb (-1) Hm Hs Hx Hy), H1. cbn [bind col].
  rewrite (cmp_cols_read fltb (-1) Hm Hs Hx Hy), H2. reflexivity.
Qed.

Lemma macd_rule_read (df : DataFrame) (st : Score) (m s : Series)
    (x y x' y' : num) :
  macd df = Some m -> macd_signal df = Some s ->
  iloc m (-1) = Ok x -> iloc s (-1) = Ok y ->
  iloc m (-2) = Ok x' -> iloc s (-2) = Ok y' ->
  macd_rule df st =
  Ok (if fgtb x y then
        if fleb x' y' then fire msg_macd_bullish 25 st else st
      else if fltb x y then
        if fgeb x' y' then fire msg_macd_bearish (-25) st else st
      else st).
Proof.
  intros Hm Hs Hx Hy Hx' Hy'. unfold macd_rule.
  rewrite (cmp_cols_read fgtb (-1) Hm Hs Hx Hy). cbn [bind col].
  destruct (fgtb x y).
  - rewrite (cmp_cols_read fleb (-2) Hm Hs Hx' Hy'). cbn [bind col].
    destruct (fleb x' y'); reflexivity.
  - rewrite (cmp_cols_read fltb (-1) Hm Hs Hx Hy). cbn [bind col].
    destruct (fltb x y); [|reflexivity].
    rewrite (cmp_cols_read fgeb (-2) Hm Hs Hx' Hy'). cbn [bind col].
    destruct (fgeb x' y'); reflexivity.
Qed.

Lemma bollinger_rule_read (df : DataFrame) (st : Score) (lo up : Series)
    (c l u : num) :
  bb_lower df = Some lo -> bb_upper df = Some up ->
  iloc (col_close df) (-1) = Ok c ->
  iloc lo (-1) = Ok l -> iloc up (-1) = Ok u ->
  bollinger_rule df st =
  Ok (if fltb c l then fire msg_below_lower 15 st
      else if fgtb c u then fire msg_above_upper (-15) st
      else st).
Proof.
  intros Hlo Hup Hc Hl Hu. unfold bollinger_rule.
  rewrite Hc, Hlo. cbn [bind col]. rewrite Hl. cbn [bind col].
  destruct (fltb c l); [reflexivity|].
  rewrite Hup. cbn [bind col]. rewrite Hu. cbn [bind col].
  destruct (fgtb c u); reflexivity.
Qed.

Lemma divergence_rule_read (self : OrderPointAnalyzer) (st : Score)
    (d : Divergence) :
  detect_divergence self = Ok (Some d) ->
  divergence_rule self st =
  Ok (if bullish d then fire msg_bullish_divergence 20 st
      else if bearish d then fire msg_bearish_divergence (-20) st
      else st).
Proof.
  intros H. unfold divergence_rule. rewrite H. cbn [bind col].
  destruct (bullish d); [reflexivity|]. destruct (bearish d); reflexivity.
Qed.

End RuleFacts.

(** ** Exponential moving averages *)

Module EwmFacts.

Lemma ewm_from_step (alpha : Q) (i : nat) :
  forall (prev a : num) (t : Series) (y x : num),
    nth_error (prev :: ewm_from alpha prev t) i = Some y ->
    nth_error (a :: t) (S i) = Some x ->
    nth_error (prev :: ewm_from alpha prev t) (S i)
    = Some (fadd (fmul (Fin (1 - alpha)) y) (fmul (Fin alpha) x)).
Proof.
  induction i as [|i IH]; intros prev a [|x1 t] y x Hy Hx;
    cbn [nth_error ewm_from] in *.
  - discriminate.
  - now injection Hy as <-; injection Hx as <-.
  - destruct i; discriminate.
  - apply (IH _ x1 t y x Hy Hx).
Qed.

(** The recurrence of [ewm(span, adjust=False)]: the first entry is the first
    value, and each later entry is
    [(1 - alpha) * previous + alpha * value] with [alpha = 2 / (span + 1)]. *)
Lemma ewm_mean_recurrence (span : positive) (s : Series) :
  let alpha := 2 # (span + 1) in
  nth_error (ewm_mean span s) 0 = nth_error s 0 /\
  forall i y x,
    nth_error (ewm_mean span s) i = Some y ->
    nth_error s (S i) = Some x ->
    nth_error (ewm_mean span s) (S i)
    = Some (fadd (fmul (Fin (1 - alpha)) y) (fmul (Fin alpha) x)).
Proof.
  intros alpha. destruct s as [|x0 t]; cbn [ewm_mean].
  - split; [reflexivity|]. intros i y x H. destruct i; discriminate.
  - split; [reflexivity|]. intros i y x Hy Hx.
    apply (@ewm_from_step alpha i x0 x0 t y x Hy Hx).
Qed.

End EwmFacts.

Import NumFacts SeriesFacts RangeFacts RsiEdgeFacts BollingerFacts
       BandNaNFacts RuleFacts.

(** ** A window of equal closes *)

Module StillFacts.

Lemma slice_nth_error (s : Series) (a b k : nat) (x : num) :
  nth_error (slice s a b) k = Some x ->
  (k < b - a)%nat /\ nth_error s (a + k) = Some x.
Proof.
  unfold slice. rewrite nth_error_firstn.
  destruct (Nat.ltb_spec k (b - a)); [|discriminate].
  rewrite nth_error_skipn. auto.
Qed.

Lemma diff_nth_error (closes : Series) (j : nat) (d : num) :
  nth_error (diff closes) j = Some d ->
  (j = 0%nat /\ d = NaN) \/
  exists j' a b, j = S j' /\ nth_error closes (S j') = Some a /\
                 nth_error closes j' = Some b /\ d = fsub a b.
Proof.
  destruct closes as [|x t]; [destruct j; discriminate|].
  destruct j as [|j']; cbn [diff nth_error].
  - intros [= <-]. now left.
  - intros H. apply map2_nth_error in H as (a & b & Ha & Hb & ->).
    right. exists j', a, b. auto.
Qed.

Lemma fsum_zeros (w : Series) :
  Forall (fun x => x = Fin 0) w -> fsum w = Fin 0.
Proof.
  induction 1 as [|x w -> _ IH]; [reflexivity|].
  rewrite fsum_cons, IH. reflexivity.
Qed.

Lemma mean_zeros (w : Series) :
  w <> [] -> Forall (fun x => x = Fin 0) w -> mean w = Fin 0.
Proof.
  intros Hne Hz. unfold mean. rewrite (fsum_zeros Hz).
  destruct w as [|x w]; [contradiction|].
  unfold of_nat, of_Z. cbn [length]. rewrite Nat2Z.inj_succ, <- Zpos_P_of_succ_nat.
  reflexivity.
Qed.

(** The difference of two equal finite values is zero and counts neither as
    a gain nor as a loss; neither does the undefined first difference. *)
Lemma still_difference (d : num) :
  d = NaN \/ (exists a b c, d = fsub a b /\ feqb a (Fin c) = true
                            /\ feqb b (Fin c) = true) ->
  (if fgtb d (of_Z 0) then d else of_Z 0) = Fin 0 /\
  fneg (if fltb d (of_Z 0) then d else of_Z 0) = Fin 0.
Proof.
  intros [->|(a & b & c & -> & Ha & Hb)]; [split; reflexivity|].
  destruct a as [| | |qa]; try discriminate Ha.
  destruct b as [| | |qb]; try discriminate Hb.
  unfold feqb in Ha, Hb.
  apply Qeq_bool_iff in Ha. apply Qeq_bool_iff in Hb.
  rewrite fsub_fin.
  assert (E : Qred (qa - qb) = 0) by (apply (Qred_complete (qa - qb) 0); lra).
  rewrite E. split; reflexivity.
Qed.

Section StillWindow.

Variables (period : nat) (closes : Series) (i : nat) (c : Q).
Hypothesis Hperiod : (1 <= period <= S i)%nat.
Hypothesis Hi : (i < length closes)%nat.
Hypothesis Hstill :
  forall j v, (i - period <= j <= i)%nat ->
              nth_error closes j = Some v -> feqb v (Fin c) = true.

Lemma still_window_difference (j : nat) (d : num) :
  (S i - period <= j <= i)%nat ->
  nth_error (diff closes) j = Some d ->
  (if fgtb d (of_Z 0) then d else of_Z 0) = Fin 0 /\
  fneg (if fltb d (of_Z 0) then d else of_Z 0) = Fin 0.
Proof.
  intros Hj Hd. apply still_difference.
  apply diff_nth_error in Hd as [[_ ->]|(j' & a & b & -> & Ha & Hb & ->)].
  - now left.
  - right. exists a, b, c. repeat split.
    + apply (Hstill (j := S j')); [lia | exact Ha].
    + apply (Hstill (j := j')); [lia | exact Hb].
Qed.

Lemma still_window_slice (f : num -> num) (w : Series) :
  (forall j d, (S i - period <= j <= i)%nat ->
               nth_error (diff closes) j = Some d -> f d = Fin 0) ->
  w = slice (map f (diff closes)) (S i - period) (S i) ->
  w <> [] /\ Forall (fun x => x = Fin 0) w.
Proof.
  intros Hf ->. split.
  - intros E. apply (f_equal (@length num)) in E.
    rewrite slice_length in E by (rewrite ?length_map, ?diff_length; lia).
    cbn [length] in E. lia.
  - apply Forall_forall. intros x Hx.
    apply In_nth_error in Hx as (k & Hk).
    apply slice_nth_error in Hk as (Hk & Hx).
    rewrite nth_error_map in Hx.
    destruct (nth_error (diff closes) (S i - period + k)) as [d|] eqn:E;
      [|discriminate].
    cbn in Hx. injection Hx as <-. apply (Hf (S i - period + k)%nat); [lia|].
    exact E.
Qed.

Lemma still_window_gain :
  nth_error (rsi_gain period closes) i = Some (Fin 0).
Proof.
  unfold rsi_gain, where_. apply rolling_nth_error.
  rewrite length_map, diff_length. split; [exact Hi|].
  destruct (Nat.ltb_spec (S i) period); [lia|].
  destruct (@still_window_slice
              (fun d => if fgtb d (of_Z 0) then d else of_Z 0) _
              (fun j d Hj Hd => proj1 (still_window_difference Hj Hd)) eq_refl)
    as [Hne Hz].
  symmetry. now apply mean_zeros.
Qed.

Lemma still_window_loss :
  nth_error (rsi_loss period closes) i = Some (Fin 0).
Proof.
  unfold rsi_loss, where_. rewrite map_map. apply rolling_nth_error.
  rewrite length_map, diff_length. split; [exact Hi|].
  destruct (Nat.ltb_spec (S i) period); [lia|].
  destruct (@still_window_slice
              (fun d => fneg (if fltb d (of_Z 0) then d else of_Z 0)) _
              (fun j d Hj Hd => proj2 (still_window_difference Hj Hd)) eq_refl)
    as [Hne Hz].
  symmetry. now apply mean_zeros.
Qed.

End StillWindow.

End StillFacts.

Import StillFacts.


(** ** The first RSI entry *)

Lemma rsi_first_entry (period : nat) (closes : Series) :
  closes <> [] -> nth_error (rsi_series period closes) 0 = Some NaN.
Proof.
  intros Hne. destruct closes as [|x t]; [contradiction|].
  apply rsi_series_entry.
  destruct period as [|[|p]].
  - exists NaN, NaN. repeat split.
  - exists (Fin 0), (Fin 0). repeat split.
  - exists NaN, NaN. repeat split.
Qed.

(** ** The aggregator against the specification's scoring *)

Module AggregatorFacts.

Lemma apply_points_none (st : Score) : apply_points (0%Z, []) st = st.
Proof.
  destruct st as [sg c]. unfold apply_points. cbn.
  now rewrite app_nil_r, Z.add_0_r.
Qed.

Ltac open_enriched H :=
  let r := fresh "r" in let m := fresh "m" in let s := fresh "s" in
  let lo := fresh "lo" in let up := fresh "up" in
  destruct H as (r & m & s & lo & up & Hr & Hm & Hs & Hlo & Hup
                 & Lr & Lm & Ls & Llo & Lup).

Section OnEnriched.

Variables (self : OrderPointAnalyzer) (df : DataFrame).
Hypothesis Hdata : data self = Some df.
Hypothesis Henr : enriched df.

Local Abbreviation n := (length (candles df)).

Lemma close_length : length (col_close df) = n.
Proof. unfold col_close. apply length_map. Qed.

Lemma rsi_rule_spec (st : Score) :
  (1 <= n)%nat ->
  rsi_rule df st = Ok (apply_points (Spec.rsi_points (snapshot self df)) st).
Proof.
  intros Hn. open_enriched Henr.
  rewrite (@rsi_rule_read df st r (from_end r 1) Hr)
    by (apply iloc_last; lia).
  unfold Spec.rsi_points, snapshot. cbn [Spec.s_rsi]. rewrite Hr. cbn [column].
  destruct (fltb (from_end r 1) (of_Z 30)); [reflexivity|].
  destruct (fgtb (from_end r 1) (of_Z 70)); [reflexivity|].
  now rewrite apply_points_none.
Qed.

Lemma macd_rule_spec (st : Score) :
  (2 <= n)%nat ->
  macd_rule df st = Ok (apply_points (Spec.macd_points (snapshot self df)) st).
Proof.
  intros Hn. open_enriched Henr.
  rewrite (@macd_rule_read df st m s (from_end m 1) (from_end s 1)
             (from_end m 2) (from_end s 2) Hm Hs)
    by (first [apply iloc_last | apply iloc_prev]; lia).
  unfold Spec.macd_points, snapshot.
  cbn [Spec.s_macd Spec.s_signal Spec.s_macd_prev Spec.s_signal_prev].
  rewrite Hm, Hs. cbn [column].
  destruct (fgtb (from_end m 1) (from_end s 1)) eqn:E1; cbn [andb].
  - destruct (fleb (from_end m 2) (from_end s 2)); [reflexivity|].
    unfold fgtb in E1. rewrite (fltb_asym _ _ E1). cbn [andb].
    now rewrite apply_points_none.
  - destruct (fltb (from_end m 1) (from_end s 1)); cbn [andb].
    + destruct (fgeb (from_end m 2) (from_end s 2)); [reflexivity|].
      now rewrite apply_points_none.
    + now rewrite apply_points_none.
Qed.

Lemma bollinger_rule_spec (st : Score) :
  (1 <= n)%nat ->
  bollinger_rule df st
  = Ok (apply_points (Spec.bollinger_points (snapshot self df)) st).
Proof.
  intros Hn. open_enriched Henr.
  pose proof close_length as Lc.
  rewrite (@bollinger_rule_read df st lo up (from_end (col_close df) 1)
             (from_end lo 1) (from_end up 1) Hlo Hup)
    by (apply iloc_last; lia).
  unfold Spec.bollinger_points, snapshot.
  cbn [Spec.s_close Spec.s_lower Spec.s_upper].
  rewrite Hlo, Hup. cbn [column].
  destruct (fltb (from_end (col_close df) 1) (from_end lo 1)); [reflexivity|].
  destruct (fgtb (from_end (col_close df) 1) (from_end up 1)); [reflexivity|].
  now rewrite apply_points_none.
Qed.

Lemma divergence_rule_spec (st : Score) :
  (20 <= n)%nat ->
  divergence_rule self st
  = Ok (apply_points (Spec.divergence_points (snapshot self df)) st).
Proof.
  intros Hn. open_enriched Henr.
  pose proof (@detect_divergence_long self df r Hdata Hr Lr Hn) as Hdd.
  rewrite (divergence_rule_read self st Hdd).
  unfold Spec.divergence_points, snapshot.
  cbn [Spec.s_bullish Spec.s_bearish]. rewrite Hdd.
  match goal with |- context [bullish ?d] => destruct (bullish d) end;
    [reflexivity|].
  match goal with |- context [bearish ?d] => destruct (bearish d) end;
    [reflexivity|].
  now rewrite apply_points_none.
Qed.

(** The score after the four rules, on at least 20 candles. *)
Lemma score_rules_spec :
  (20 <= n)%nat ->
  score_rules self df =
  Ok {| sc_signals := Spec.reasons (snapshot self df);
        sc_confidence := Spec.signed_score (snapshot self df) |}.
Proof.
  intros Hn. unfold score_rules.
  rewrite rsi_rule_spec by lia. cbn [bind].
  rewrite macd_rule_spec by lia. cbn [bind].
  rewrite bollinger_rule_spec by lia. cbn [bind].
  rewrite divergence_rule_spec by lia.
  unfold apply_points, Spec.reasons, Spec.signed_score.
  cbn [sc_signals sc_confidence]. f_equal. f_equal.
  cbn [app]. now rewrite <- !app_assoc.
Qed.

End OnEnriched.

End AggregatorFacts.

Module AggregatorErrors.
Import AggregatorFacts.

Lemma classify_spec (c : Z) :
  classify c = Spec.action_text (Spec.classify_action c).
Proof.
  unfold classify, Spec.classify_action. rewrite !Z.gtb_ltb.
  destruct (40 <? c)%Z; [reflexivity|].
  destruct (20 <? c)%Z; [reflexivity|].
  destruct (c <? -40)%Z; [reflexivity|].
  destruct (c <? -20)%Z; reflexivity.
Qed.

(** On an enriched frame the MACD rule can only fail on a positional read. *)
Lemma macd_rule_raises (df : DataFrame) (st : Score) (e : exn) :
  enriched df -> macd_rule df st = Raise e -> e = IndexError.
Proof.
  intros Henr H. open_enriched Henr.
  unfold macd_rule, cmp_cols in H. rewrite Hm, Hs in H. cbn [bind col] in H.
  repeat match type of H with
         | context [iloc ?s ?i] =>
             let E := fresh "E" in
             destruct (iloc s i) eqn:E; [|apply iloc_raises in E];
             cbn [bind] in H
         end;
    repeat match type of H with
           | context [if ?b then _ else _] => destruct b
           end;
    congruence.
Qed.

(** An enriched frame of fewer than 20 candles makes the aggregator fail. *)
Lemma generate_signal_short (self : OrderPointAnalyzer) (df : DataFrame) :
  data self = Some df -> enriched df ->
  (length (candles df) < 20)%nat ->
  generate_signal self = Raise IndexError.
Proof.
  intros Hd Henr Hn. unfold generate_signal. rewrite Hd. unfold score_rules.
  destruct (Nat.eq_dec (length (candles df)) 0) as [Hz|Hz].
  - pose proof Henr as Henr'. open_enriched Henr'.
    unfold rsi_rule. rewrite Hr. cbn [bind col].
    assert (E : iloc r (-1) = Raise IndexError)
      by (apply (@iloc_too_short r 1); lia).
    now rewrite E.
  - rewrite (rsi_rule_spec self Henr) by lia. cbn [bind].
    match goal with |- context [macd_rule df ?st] =>
      destruct (macd_rule df st) as [st2|e] eqn:E end; cbn [bind].
    + rewrite (bollinger_rule_spec self Henr) by lia. cbn [bind].
      pose proof Henr as Henr'. open_enriched Henr'.
      unfold divergence_rule.
      now rewrite (@detect_divergence_short self df r Hd Hr Hn).
    + now rewrite (macd_rule_raises _ Henr E).
Qed.

End AggregatorErrors.

Import AggregatorFacts AggregatorErrors.

(** ** The enrichment yields enriched frames *)

Lemma rsi_series_length (period : nat) (closes : Series) :
  length (rsi_series period closes) = length closes.
Proof.
  unfold rsi_series, rsi_gain, rsi_loss.
  rewrite length_map, map2_length, !rolling_length, length_map,
    !where_length, diff_length. lia.
Qed.

Lemma enrich_frame (sqrtQ : Q -> Q) (self : OrderPointAnalyzer)
    (df : DataFrame) :
  data self = Some df ->
  let c := col_close df in
  let ms := macd_series 12 26 9 c in
  let bs := bollinger_series sqrtQ 20 2 c in
  data (enrich sqrtQ self)
  = Some (set_bb (set_macd (set_rsi df (rsi_series 14 c))
                    (fst (fst ms)) (snd (fst ms)) (snd ms))
            (fst (fst bs)) (snd (fst bs)) (snd bs)).
Proof.
  intros Hd c ms bs. subst ms bs c. unfold enrich. cbv zeta.
  unfold calculate_rsi. rewrite Hd. cbn [fst].
  unfold calculate_macd. cbn [data with_data].
  unfold col_close. cbn [candles set_rsi].
  destruct (macd_series 12 26 9 (map close (candles df))) as [[m s] h].
  cbn [fst snd].
  unfold calculate_bollinger_bands. cbn [data with_data].
  unfold col_close. cbn [candles set_rsi set_macd].
  destruct (bollinger_series sqrtQ 20 2 (map close (candles df)))
    as [[up sm] lo].
  reflexivity.
Qed.

Lemma enrich_enriched (sqrtQ : Q -> Q) (self : OrderPointAnalyzer)
    (df : DataFrame) :
  data self = Some df ->
  data (enrich sqrtQ self) = Some (frame (enrich sqrtQ self)) /\
  candles (frame (enrich sqrtQ self)) = candles df /\
  enriched (frame (enrich sqrtQ self)).
Proof.
  intros Hd. unfold frame. rewrite (enrich_frame sqrtQ self Hd).
  cbv zeta. split; [reflexivity|]. split; [reflexivity|].
  pose proof (bollinger_lengths sqrtQ 20 2 (col_close df)) as HL.
  destruct (bollinger_series sqrtQ 20 2 (col_close df)) as [[up sm] lo].
  destruct HL as (Lu & _ & Ll).
  assert (Lc : length (col_close df) = length (candles df))
    by apply length_map.
  unfold enriched. cbn [candles rsi macd macd_signal bb_lower bb_upper set_bb
                          set_macd set_rsi fst snd macd_series].
  do 5 eexists. repeat split.
  - now rewrite rsi_series_length.
  - rewrite map2_length, !ewm_mean_length. lia.
  - rewrite ewm_mean_length, map2_length, !ewm_mean_length. lia.
  - congruence.
  - congruence.
Qed.

(** ** What one rule can contribute *)

Module ContributionFacts.

(** Case analysis on every read and test of a rule that returned. *)
Ltac rule_cases H :=
  unfold rsi_rule, macd_rule, bollinger_rule, divergence_rule, cmp_cols,
    bind in H;
  repeat match type of H with
         | context [match ?x with _ => _ end] => destruct x eqn:?
         end;
  try discriminate H; injection H as <-.

Ltac grants c msg :=
  exists c; split; [cbn; tauto | right; split; [discriminate|]; now exists msg].

Ltac grants_nothing :=
  exists 0%Z; split; [cbn; tauto | left; split; reflexivity].

Lemma rsi_rule_contributes (df : DataFrame) (st st' : Score) :
  rsi_rule df st = Ok st' ->
  exists c, In c [0; 20; -20]%Z /\ contributes c st st'.
Proof.
  intros H. rule_cases H;
    [grants 20%Z msg_rsi_oversold | grants (-20)%Z msg_rsi_overbought
     | grants_nothing].
Qed.

Lemma macd_rule_contributes (df : DataFrame) (st st' : Score) :
  macd_rule df st = Ok st' ->
  exists c, In c [0; 25; -25]%Z /\ contributes c st st'.
Proof.
  intros H. rule_cases H;
    first [grants 25%Z msg_macd_bullish | grants (-25)%Z msg_macd_bearish
           | grants_nothing].
Qed.

Lemma bollinger_rule_contributes (df : DataFrame) (st st' : Score) :
  bollinger_rule df st = Ok st' ->
  exists c, In c [0; 15; -15]%Z /\ contributes c st st'.
Proof.
  intros H. rule_cases H;
    first [grants 15%Z msg_below_lower | grants (-15)%Z msg_above_upper
           | grants_nothing].
Qed.

Lemma divergence_rule_contributes (self : OrderPointAnalyzer)
    (st st' : Score) :
  divergence_rule self st = Ok st' ->
  exists c, In c [0; 20; -20]%Z /\ contributes c st st'.
Proof.
  intros H. rule_cases H;
    first [grants 20%Z msg_bullish_divergence
           | grants (-20)%Z msg_bearish_divergence
           | grants_nothing].
Qed.

Lemma contributes_confidence (c : Z) (st st' : Score) :
  contributes c st st' -> sc_confidence st' = (sc_confidence st + c)%Z.
Proof.
  intros [[-> ->]|[_ [msg ->]]]; cbn; lia.
Qed.

Lemma contributes_reasons (c : Z) (st st' : Score) :
  contributes c st st' ->
  length (sc_signals st')
  = (length (sc_signals st) + if (c =? 0)%Z then 0 else 1)%nat.
Proof.
  intros [[-> ->]|[Hc [msg ->]]]; cbn.
  - lia.
  - rewrite length_app. cbn. destruct (Z.eqb_spec c 0); [contradiction|lia].
Qed.

End ContributionFacts.

Import ContributionFacts.

(** ** Undefined inputs leave the score alone *)

Module SkipFacts.

Lemma nan_pair (x y : num) :
  is_nan x || is_nan y = true ->
  fltb x y = false /\ fltb y x = false /\ feqb x y = false /\ feqb y x = false.
Proof.
  destruct x, y; cbn; intros H; try discriminate H; repeat split.
Qed.

Lemma rsi_rule_nan (df : DataFrame) (st : Score) (s : Series) :
  rsi df = Some s -> iloc s (-1) = Ok NaN -> rsi_rule df st = Ok st.
Proof. intros Hs Hr. now rewrite (rsi_rule_read df st Hs Hr). Qed.

Lemma macd_rule_nan_last (df : DataFrame) (st : Score) (m s : Series)
    (x y : num) :
  macd df = Some m -> macd_signal df = Some s ->
  iloc m (-1) = Ok x -> iloc s (-1) = Ok y ->
  is_nan x || is_nan y = true ->
  macd_rule df st = Ok st.
Proof.
  intros Hm Hs Hx Hy Hn. destruct (nan_pair _ _ Hn) as (H1 & H2 & _).
  now apply (@macd_rule_level df st m s x y).
Qed.

Lemma macd_rule_nan_prev (df : DataFrame) (st : Score) (m s : Series)
    (x y x' y' : num) :
  macd df = Some m -> macd_signal df = Some s ->
  iloc m (-1) = Ok x -> iloc s (-1) = Ok y ->
  iloc m (-2) = Ok x' -> iloc s (-2) = Ok y' ->
  is_nan x' || is_nan y' = true ->
  macd_rule df st = Ok st.
Proof.
  intros Hm Hs Hx Hy Hx' Hy' Hn.
  destruct (nan_pair _ _ Hn) as (H1 & H2 & H3 & H4).
  rewrite (macd_rule_read df st Hm Hs Hx Hy Hx' Hy').
  unfold fgeb, fleb. rewrite H1, H2, H3, H4. cbn.
  destruct (fgtb x y); [reflexivity|]. destruct (fltb x y); reflexivity.
Qed.

Lemma bollinger_rule_nan_price (df : DataFrame) (st : Score) (lo up : Series)
    (l u : num) :
  bb_lower df = Some lo -> bb_upper df = Some up ->
  iloc (col_close df) (-1) = Ok NaN ->
  iloc lo (-1) = Ok l -> iloc up (-1) = Ok u ->
  bollinger_rule df st = Ok st.
Proof.
  intros Hlo Hup Hc Hl Hu.
  rewrite (bollinger_rule_read df st Hlo Hup Hc Hl Hu).
  unfold fgtb. now rewrite fltb_nan_l, fltb_nan_r.
Qed.

Lemma bollinger_rule_nan_bands (df : DataFrame) (st : Score) (lo up : Series)
    (c : num) :
  bb_lower df = Some lo -> bb_upper df = Some up ->
  iloc (col_close df) (-1) = Ok c ->
  iloc lo (-1) = Ok NaN -> iloc up (-1) = Ok NaN ->
  bollinger_rule df st = Ok st.
Proof.
  intros Hlo Hup Hc Hl Hu.
  rewrite (bollinger_rule_read df st Hlo Hup Hc Hl Hu).
  unfold fgtb. now rewrite fltb_nan_l, fltb_nan_r.
Qed.

(** The frame that [calculate_bollinger_bands] leaves behind. *)
Lemma bollinger_frame (sqrtQ : Q -> Q) (p : nat) (k : Q)
    (self : OrderPointAnalyzer) (df : DataFrame) :
  data self = Some df ->
  let bs := bollinger_series sqrtQ p k (col_close df) in
  frame (fst (calculate_bollinger_bands sqrtQ p k self))
  = set_bb df (fst (fst bs)) (snd (fst bs)) (snd bs).
Proof.
  intros Hd bs. subst bs. unfold frame, calculate_bollinger_bands.
  rewrite Hd. destruct (bollinger_series sqrtQ p k (col_close df))
    as [[up sm] lo]. reflexivity.
Qed.

(** The bands that [calculate_bollinger_bands] computes are undefined
    together, index by index. *)
Lemma computed_bands_nan_together (sqrtQ : Q -> Q) (p : nat) (k : Q)
    (closes : Series) (i : nat) (u l : num) :
  let bs := bollinger_series sqrtQ p k closes in
  nth_error (fst (fst bs)) i = Some u ->
  nth_error (snd bs) i = Some l ->
  is_nan u = is_nan l.
Proof.
  intros bs Hu Hl. subst bs.
  assert (Hi : (i < length closes)%nat).
  { pose proof (bollinger_lengths sqrtQ p k closes) as HL.
    destruct (bollinger_series sqrtQ p k closes) as [[up sm] lo].
    destruct HL as (HL & _). rewrite <- HL.
    apply nth_error_Some. cbn [fst] in Hu. congruence. }
  pose proof (@bollinger_entry sqrtQ p k closes i Hi) as HE. cbv zeta in HE.
  destruct (bollinger_series sqrtQ p k closes) as [[up sm] lo].
  cbn [fst snd] in *. destruct HE as (Eu & _ & El).
  rewrite Eu in Hu. rewrite El in Hl.
  injection Hu as <-. injection Hl as <-.
  destruct (S i <? p)%nat; [reflexivity|].
  apply bands_nan_together.
Qed.

(** Before the first full window every band is undefined. *)
Lemma early_bands_undefined (sqrtQ : Q -> Q) (p : nat) (k : Q)
    (closes : Series) (i : nat) (v : num) :
  (S i < p)%nat ->
  let bs := bollinger_series sqrtQ p k closes in
  nth_error (fst (fst bs)) i = Some v \/
  nth_error (snd (fst bs)) i = Some v \/
  nth_error (snd bs) i = Some v ->
  v = NaN.
Proof.
  intros Hp bs H. subst bs.
  assert (Hi : (i < length closes)%nat).
  { pose proof (bollinger_lengths sqrtQ p k closes) as HL.
    destruct (bollinger_series sqrtQ p k closes) as [[up sm] lo].
    cbn [fst snd] in H. destruct HL as (H1 & H2 & H3).
    destruct H as [H|[H|H]];
      [rewrite <- H1 | rewrite <- H2 | rewrite <- H3];
      apply nth_error_Some; congruence. }
  pose proof (@bollinger_entry sqrtQ p k closes i Hi) as HE. cbv zeta in HE.
  destruct (bollinger_series sqrtQ p k closes) as [[up sm] lo].
  cbn [fst snd] in H. destruct HE as (Eu & Em & El).
  destruct (Nat.ltb_spec (S i) p); [|lia].
  cbn [fadd fsub fmul] in Eu, El.
  destruct H as [H|[H|H]]; congruence.
Qed.

Lemma divergence_rule_nan (self : OrderPointAnalyzer) (df : DataFrame)
    (r : Series) (st : Score) :
  data self = Some df -> rsi df = Some r ->
  length r = length (candles df) -> (20 <= length (candles df))%nat ->
  is_nan (from_end r 1) || is_nan (from_end r 20) = true \/
  is_nan (from_end (col_close df) 1)
  || is_nan (from_end (col_close df) 20) = true ->
  divergence_rule self st = Ok st.
Proof.
  intros Hd Hr Hlen Hn Hnan.
  rewrite (divergence_rule_read self st
             (detect_divergence_long self Hd Hr Hlen Hn)).
  cbn [bullish bearish]. unfold fgtb.
  destruct Hnan as [H|H]; destruct (nan_pair _ _ H) as (H1 & H2 & _);
    rewrite H1, H2, ?andb_false_r; reflexivity.
Qed.

End SkipFacts.

Import SkipFacts.

(** The Bollinger rule on the bands that [calculate_bollinger_bands] stored:
    an undefined latest band, either of them, leaves the score alone. *)
Lemma bollinger_rule_computed_nan (sqrtQ : Q -> Q) (p : nat) (k : Q)
    (self : OrderPointAnalyzer) (df : DataFrame) (st : Score) (l u : num) :
  data self = Some df ->
  let df' := frame (fst (calculate_bollinger_bands sqrtQ p k self)) in
  iloc (column (bb_lower df')) (-1) = Ok l ->
  iloc (column (bb_upper df')) (-1) = Ok u ->
  is_nan l || is_nan u = true ->
  bollinger_rule df' st = Ok st.
Proof.
  intros Hd df' Hl Hu Hnan. subst df'.
  rewrite (bollinger_frame sqrtQ p k self Hd) in *. cbv zeta in *.
  pose proof (bollinger_lengths sqrtQ p k (col_close df)) as HL.
  pose proof (@computed_bands_nan_together sqrtQ p k (col_close df)) as HT.
  cbv zeta in HT.
  destruct (bollinger_series sqrtQ p k (col_close df)) as [[up sm] lo].
  cbn [fst snd bb_lower bb_upper set_bb column] in *.
  destruct HL as (Lu & _ & Ll).
  apply (@iloc_Ok_from_end lo 1) in Hl as [Hn1 ->]; [|lia].
  apply (@iloc_Ok_from_end up 1) in Hu as [Hn2 ->]; [|lia].
  assert (E : is_nan (from_end up 1) = is_nan (from_end lo 1)).
  { apply (HT (length (col_close df) - 1)%nat).
    - rewrite <- Lu. apply from_end_nth_error. lia.
    - rewrite <- Ll. apply from_end_nth_error. lia. }
  assert (El : from_end lo 1 = NaN).
  { rewrite E in Hnan. destruct (from_end lo 1); try discriminate Hnan.
    reflexivity. }
  assert (Eu : from_end up 1 = NaN).
  { rewrite El in E. destruct (from_end up 1); try discriminate E.
    reflexivity. }
  apply (@bollinger_rule_nan_bands _ st lo up (from_end (col_close df) 1)).
  - reflexivity.
  - reflexivity.
  - apply iloc_last. lia.
  - rewrite <- El. apply iloc_last. lia.
  - rewrite <- Eu. apply iloc_last. lia.
Qed.

(** ** Rounding and the entry plan *)

Module EntryFacts.





End EntryFacts.

Import EntryFacts.

(** ** Sets, sorting and the first three *)

Module SortFacts.

Lemma StronglySorted_filter (R : num -> num -> Prop) (f : num -> bool)
    (l : list num) :
  StronglySorted R l -> StronglySorted R (filter f l).
Proof.
  induction 1 as [|x l Hs IH Hx]; cbn; [constructor|].
  destruct (f x); [|exact IH].
  constructor; [exact IH|].
  apply Forall_forall. intros y Hy. apply filter_In in Hy as [Hy _].
  now apply (proj1 (Forall_forall _ _) Hx).
Qed.

Lemma StronglySorted_app (R : num -> num -> Prop) (l1 l2 : list num) :
  StronglySorted R l1 -> StronglySorted R l2 ->
  (forall a b, In a l1 -> In b l2 -> R a b) ->
  StronglySorted R (l1 ++ l2).
Proof.
  induction 1 as [|x l Hs IH Hx]; cbn; intros H2 Hc; [exact H2|].
  constructor.
  - apply IH; [exact H2|]. intros a b Ha Hb. apply Hc; [now right|exact Hb].
  - apply Forall_app. split; [exact Hx|].
    apply Forall_forall. intros b Hb. apply Hc; [now left|exact Hb].
Qed.

Lemma StronglySorted_app_inv (R : num -> num -> Prop) (l1 l2 : list num) :
  StronglySorted R (l1 ++ l2) ->
  StronglySorted R l1 /\ forall a b, In a l1 -> In b l2 -> R a b.
Proof.
  induction l1 as [|x l1 IH]; cbn; intros H.
  - split; [constructor|]. intros a b [].
  - apply StronglySorted_inv in H as [Hs Hx].
    destruct (IH Hs) as [H1 Hc]. apply Forall_app in Hx as [Hx1 Hx2].
    split; [now constructor|].
    intros a b [<-|Ha] Hb.
    + now apply (proj1 (Forall_forall _ _) Hx2).
    + now apply Hc.
Qed.

Lemma StronglySorted_rev (R : num -> num -> Prop) (l : list num) :
  StronglySorted R l -> StronglySorted (fun a b => R b a) (rev l).
Proof.
  induction 1 as [|x l Hs IH Hx]; cbn; [constructor|].
  apply StronglySorted_app; [exact IH | repeat constructor |].
  intros a b Ha [<-|[]]. apply in_rev in Ha.
  now apply (proj1 (Forall_forall _ _) Hx).
Qed.

(** [set(l)] keeps values of [l], one for each value, all distinct. *)

Lemma set_incl (l : list num) (v : num) : In v (set_ l) -> In v l.
Proof.
  revert v; induction l as [|x t IH]; cbn; [tauto|].
  intros v [<-|H]; [now left|].
  apply filter_In in H as [H _]. right. now apply IH.
Qed.

Lemma set_covers (l : list num) (c : num) :
  In c l -> defined c -> exists v, In v (set_ l) /\ feqb c v = true.
Proof.
  induction l as [|x t IH]; cbn; [tauto|].
  intros [->|Hc] Hd.
  - exists c. split; [now left | now apply feqb_refl].
  - destruct (IH Hc Hd) as (v & Hv & Hcv).
    destruct (feqb x v) eqn:Exv.
    + exists x. split; [now left|].
      rewrite (feqb_sym x v) in Exv. rewrite feqb_sym in Exv.
      apply (feqb_trans _ _ _ Hcv). now rewrite feqb_sym.
    + exists v. split; [|exact Hcv].
      right. apply filter_In. split; [exact Hv|]. now rewrite Exv.
Qed.

Lemma set_distinct (l : list num) : StronglySorted distinct (set_ l).
Proof.
  induction l as [|x t IH]; cbn; [constructor|].
  constructor.
  - now apply StronglySorted_filter.
  - apply Forall_forall. intros y Hy. apply filter_In in Hy as [_ Hy].
    unfold distinct. now destruct (feqb x y).
Qed.

(** [sorted] on defined, distinct values: the same values in strictly
    increasing order. *)

Lemma insert_sorted_In (x : num) (l : list num) (v : num) :
  In v (insert_sorted x l) <-> v = x \/ In v l.
Proof.
  induction l as [|y t IH]; cbn.
  - intuition congruence.
  - destruct (fltb x y); cbn; [intuition congruence|].
    rewrite IH. intuition congruence.
Qed.

Lemma insert_sorted_sorted (x : num) (l : list num) :
  defined x -> Forall defined l -> Forall (distinct x) l ->
  StronglySorted lt l -> StronglySorted lt (insert_sorted x l).
Proof.
  intros Hx Hd Hdis Hs. induction Hs as [|y t Hs IH Hy]; cbn.
  - repeat constructor.
  - apply Forall_cons_iff in Hd as [Hdy Hdt].
    apply Forall_cons_iff in Hdis as [Hxy Hxt].
    destruct (fltb x y) eqn:E.
    + constructor; [now constructor|].
      constructor; [exact E|].
      apply Forall_forall. intros z Hz.
      apply (fltb_trans _ _ _ E).
      now apply (proj1 (Forall_forall _ _) Hy).
    + constructor; [now apply IH|].
      apply Forall_forall. intros z Hz.
      apply insert_sorted_In in Hz as [->|Hz].
      * now apply trichotomy.
      * now apply (proj1 (Forall_forall _ _) Hy).
Qed.

Lemma sorted_In (l : list num) (v : num) : In v (sorted l) <-> In v l.
Proof.
  induction l as [|x t IH]; [cbn; tauto|].
  change (sorted (x :: t)) with (insert_sorted x (sorted t)).
  rewrite insert_sorted_In, IH. cbn. intuition congruence.
Qed.

Lemma sorted_sorted (l : list num) :
  Forall defined l -> StronglySorted distinct l -> StronglySorted lt (sorted l).
Proof.
  intros Hd Hs. induction Hs as [|x t Hs IH Hx]; [constructor|].
  change (sorted (x :: t)) with (insert_sorted x (sorted t)).
  apply Forall_cons_iff in Hd as [Hdx Hdt].
  apply insert_sorted_sorted; auto.
  - apply Forall_forall. intros z Hz. apply (proj1 (sorted_In _ _)) in Hz.
    now apply (proj1 (Forall_forall _ _) Hdt).
  - apply Forall_forall. intros z Hz. apply (proj1 (sorted_In _ _)) in Hz.
    now apply (proj1 (Forall_forall _ _) Hx).
Qed.

Lemma sorted_reverse_In (l : list num) (v : num) :
  In v (sorted_reverse l) <-> In v l.
Proof.
  unfold sorted_reverse. rewrite <- in_rev, sorted_In, <- in_rev. tauto.
Qed.

Lemma sorted_reverse_sorted (l : list num) :
  Forall defined l -> StronglySorted distinct l ->
  StronglySorted (fun a b => fgtb a b = true) (sorted_reverse l).
Proof.
  intros Hd Hs. unfold sorted_reverse.
  apply (StronglySorted_rev (R := lt)). apply sorted_sorted.
  - apply Forall_forall. intros z Hz. apply in_rev in Hz.
    now apply (proj1 (Forall_forall _ _) Hd).
  - apply StronglySorted_rev in Hs.
    clear Hd. induction Hs as [|x t Hs IH Hx]; constructor; auto.
    apply Forall_forall. intros z Hz. unfold distinct.
    rewrite feqb_sym. now apply (proj1 (Forall_forall _ _) Hx).
Qed.

End SortFacts.

(** ** Least and greatest values *)

Module MinMaxFacts.

Lemma smin_cons (x : num) (s : Series) : smin (x :: s) = fmin2 x (smin s).
Proof. reflexivity. Qed.

Lemma smax_cons (x : num) (s : Series) : smax (x :: s) = fmax2 x (smax s).
Proof. reflexivity. Qed.

(** [smin s] is undefined when every value is, and otherwise a defined value
    of [s] under which no defined value of [s] lies. *)
Lemma smin_cases (s : Series) :
  (smin s = NaN /\ Forall (fun x => is_nan x = true) s) \/
  (is_nan (smin s) = false /\ In (smin s) s /\
   forall x, In x s -> is_nan x = false -> fleb (smin s) x = true).
Proof.
  induction s as [|x t IH]; [left; split; [reflexivity|constructor]|].
  rewrite smin_cons. unfold fmin2.
  destruct (is_nan x) eqn:Ex.
  - destruct IH as [[E A]|(D & I & L)].
    + left. split; [exact E|]. now constructor.
    + right. repeat split; [exact D | now right |].
      intros y [<-|Hy] Dy; [congruence|]. now apply L.
  - destruct IH as [[E A]|(D & I & L)].
    + right. rewrite E. cbn [is_nan]. repeat split; [exact Ex | now left |].
      intros y [<-|Hy] Dy; [now apply fleb_refl|].
      rewrite (proj1 (Forall_forall _ _) A y Hy) in Dy. discriminate.
    + right. rewrite D. destruct (fltb (smin t) x) eqn:El.
      * repeat split; [exact D | now right |].
        intros y [<-|Hy] Dy; [|now apply L].
        unfold fleb. now rewrite El.
      * assert (Hx : fleb x (smin t) = true) by now apply fleb_fltb_false.
        repeat split; [exact Ex | now left |].
        intros y [<-|Hy] Dy; [now apply fleb_refl|].
        apply (fleb_trans _ _ _ Hx). now apply L.
Qed.

Lemma smax_cases (s : Series) :
  (smax s = NaN /\ Forall (fun x => is_nan x = true) s) \/
  (is_nan (smax s) = false /\ In (smax s) s /\
   forall x, In x s -> is_nan x = false -> fleb x (smax s) = true).
Proof.
  induction s as [|x t IH]; [left; split; [reflexivity|constructor]|].
  rewrite smax_cons. unfold fmax2.
  destruct (is_nan x) eqn:Ex.
  - destruct IH as [[E A]|(D & I & L)].
    + left. split; [exact E|]. now constructor.
    + right. repeat split; [exact D | now right |].
      intros y [<-|Hy] Dy; [congruence|]. now apply L.
  - destruct IH as [[E A]|(D & I & L)].
    + right. rewrite E. cbn [is_nan]. repeat split; [exact Ex | now left |].
      intros y [<-|Hy] Dy; [now apply fleb_refl|].
      rewrite (proj1 (Forall_forall _ _) A y Hy) in Dy. discriminate.
    + right. rewrite D. destruct (fltb x (smax t)) eqn:El.
      * repeat split; [exact D | now right |].
        intros y [<-|Hy] Dy; [|now apply L].
        unfold fleb. now rewrite El.
      * assert (Hx : fleb (smax t) x = true) by now apply fleb_fltb_false.
        repeat split; [exact Ex | now left |].
        intros y [<-|Hy] Dy; [now apply fleb_refl|].
        apply (fleb_trans _ _ _ (L y Hy Dy) Hx).
Qed.

(** The test of the loop, [v == s.min()], says that [v] equals the least
    defined value of [s]. *)
Lemma smin_least (s : Series) (v : num) :
  feqb v (smin s) = true <-> least_of s v.
Proof.
  split.
  - intros E. destruct (feqb_not_nan _ _ E) as [Dv Dm].
    destruct (smin_cases s) as [[En _]|(_ & I & L)];
      [rewrite En in Dm; discriminate|].
    split; [now exists (smin s)|].
    intros x Hx Dx. rewrite (fleb_feqb_l v (smin s) x E). now apply L.
  - intros [(m & Hm & Evm) Hle].
    destruct (feqb_not_nan _ _ Evm) as [Dv Dm].
    destruct (smin_cases s) as [[_ A]|(D & I & L)].
    + rewrite (proj1 (Forall_forall _ _) A m Hm) in Dm. discriminate.
    + apply fleb_antisym; [now apply Hle|].
      rewrite (fleb_feqb_r v m (smin s) Evm). now apply L.
Qed.

Lemma smax_greatest (s : Series) (v : num) :
  feqb v (smax s) = true <-> greatest_of s v.
Proof.
  split.
  - intros E. destruct (feqb_not_nan _ _ E) as [Dv Dm].
    destruct (smax_cases s) as [[En _]|(_ & I & L)];
      [rewrite En in Dm; discriminate|].
    split; [now exists (smax s)|].
    intros x Hx Dx. rewrite (fleb_feqb_r v (smax s) x E). now apply L.
  - intros [(m & Hm & Evm) Hle].
    destruct (feqb_not_nan _ _ Evm) as [Dv Dm].
    destruct (smax_cases s) as [[_ A]|(D & I & L)].
    + rewrite (proj1 (Forall_forall _ _) A m Hm) in Dm. discriminate.
    + apply fleb_antisym; [|now apply Hle].
      rewrite (fleb_feqb_l v m (smax s) Evm). now apply L.
Qed.

End MinMaxFacts.

(** ** Support and resistance candidates *)

Module LevelFacts.
Import SortFacts MinMaxFacts.

Lemma first_three (before : num -> num -> bool) (cand : num -> Prop)
    (L : list num) :
  (forall u v c, feqb c v = true -> before u v = true -> before u c = true) ->
  StronglySorted (fun a b => before a b = true) L ->
  (forall v, In v L -> cand v) ->
  (forall c, cand c -> exists v, In v L /\ feqb c v = true) ->
  best_three before cand (firstn 3 L).
Proof.
  intros Hcompat Hs Hin Hcov.
  rewrite <- (firstn_skipn 3 L) in Hs.
  apply StronglySorted_app_inv in Hs as [Hs Hcross].
  repeat split.
  - apply firstn_le_length.
  - exact Hs.
  - intros v Hv. apply Hin. now apply (@In_firstn num 3 L).
  - intros c Hc. destruct (Hcov c Hc) as (v & Hv & Hcv).
    rewrite <- (firstn_skipn 3 L) in Hv. apply in_app_or in Hv as [Hv|Hv].
    + left. now exists v.
    + right. split.
      * apply firstn_length_le.
        destruct (Nat.le_gt_cases 3 (length L)) as [H|H]; [exact H|].
        rewrite skipn_all2 in Hv by lia. destruct Hv.
      * intros u Hu. apply (Hcompat u v c Hcv). now apply Hcross.
Qed.

Section Candidates.

Variables (window : nat) (df : DataFrame).

Local Abbreviation lows := (col_low df).
Local Abbreviation highs := (col_high df).

Lemma level_fold (l : list nat) (acc : list num * list num) :
  fold_left (level_step window df) l acc
  = (fst acc ++ flat_map (low_hit window lows) l,
     snd acc ++ flat_map (high_hit window highs) l).
Proof.
  revert acc; induction l as [|i l IH]; intros [a b]; cbn [fold_left flat_map].
  - cbn. now rewrite !app_nil_r.
  - rewrite IH. unfold level_step, low_hit, high_hit.
    cbn [fst snd].
    destruct (feqb (nth i lows NaN) _), (feqb (nth i highs NaN) _);
      cbn [fst snd]; rewrite <- ?app_assoc; reflexivity.
Qed.

Lemma support_candidates_spec (v : num) :
  In v (fst (level_candidates window df)) <-> support_candidate window lows v.
Proof.
  unfold level_candidates. rewrite level_fold. cbn [fst app].
  rewrite in_flat_map. unfold support_candidate, low_hit.
  assert (Hn : length lows = length (candles df)) by apply length_map.
  split.
  - intros (i & Hi & Hv). apply in_seq in Hi.
    destruct (feqb (nth i lows NaN) _) eqn:E; [|destruct Hv].
    destruct Hv as [<-|[]]. exists i. split; [lia|]. split; [reflexivity|].
    now apply smin_least.
  - intros (i & Hi & <- & E). apply smin_least in E. exists i. split.
    + apply in_seq. lia.
    + rewrite E. now left.
Qed.

Lemma resistance_candidates_spec (v : num) :
  In v (snd (level_candidates window df))
  <-> resistance_candidate window highs v.
Proof.
  unfold level_candidates. rewrite level_fold. cbn [snd app].
  rewrite in_flat_map. unfold resistance_candidate, high_hit.
  assert (Hn : length highs = length (candles df)) by apply length_map.
  split.
  - intros (i & Hi & Hv). apply in_seq in Hi.
    destruct (feqb (nth i highs NaN) _) eqn:E; [|destruct Hv].
    destruct Hv as [<-|[]]. exists i. split; [lia|]. split; [reflexivity|].
    now apply smax_greatest.
  - intros (i & Hi & <- & E). apply smax_greatest in E. exists i. split.
    + apply in_seq. lia.
    + rewrite E. now left.
Qed.

Lemma support_candidate_defined (v : num) :
  support_candidate window lows v -> defined v.
Proof.
  intros (i & _ & _ & E). apply smin_least in E. now apply feqb_not_nan in E.
Qed.

Lemma resistance_candidate_defined (v : num) :
  resistance_candidate window highs v -> defined v.
Proof.
  intros (i & _ & _ & E). apply smax_greatest in E.
  now apply feqb_not_nan in E.
Qed.

End Candidates.

End LevelFacts.

Import SortFacts LevelFacts.

(** The read columns of a concrete frame, offered as the evidence that it is
    enriched. *)
Ltac show_enriched df :=
  exists (column (rsi df)), (column (macd df)), (column (macd_signal df)),
         (column (bb_lower df)), (column (bb_upper df));
  repeat split; vm_compute; reflexivity.

(** * The claims *)

(** C1 (amended): on an enriched frame of at least 20 candles
    [generate_signal] reports the signal of the specification: the score
    starts at 0, the RSI, MACD, Bollinger and divergence rules apply in this
    order, each granting its points or their opposite or nothing, the action
    is StrongBuy above 40, Buy above 20, StrongSell under -40, Sell under -20
    and Hold otherwise, the confidence is the absolute value of the score and
    the reasons come in the order of the rules.  On fewer than 20 candles it
    raises [IndexError].  When the latest RSI is 25, the MACD crosses its
    signal line upwards, the close is under the lower band and the divergence
    is bullish, the action is StrongBuy with confidence 80. *)
Theorem generate_signal_scores :
  forall (self : OrderPointAnalyzer) (df : DataFrame),
    data self = Some df ->
    enriched df ->
    let n := length (candles df) in
    let s := snapshot self df in
    ((20 <= n)%nat -> generate_signal self = Ok (Some (Spec.signal s))) /\
    ((n < 20)%nat -> generate_signal self = Raise IndexError) /\
    (feqb (Spec.s_rsi s) (of_Z 25) = true ->
     fgtb (Spec.s_macd s) (Spec.s_signal s) = true ->
     fleb (Spec.s_macd_prev s) (Spec.s_signal_prev s) = true ->
     fltb (Spec.s_close s) (Spec.s_lower s) = true ->
     Spec.s_bullish s = true ->
     generate_signal self =
     Ok (Some {| action := Spec.action_text Spec.StrongBuy;
                 confidence := 80;
                 signals := [msg_rsi_oversold; msg_macd_bullish;
                             msg_below_lower; msg_bullish_divergence] |})).
Proof.
  intros self df Hd Henr n s.
  assert (Hlong : (20 <= n)%nat ->
                  generate_signal self = Ok (Some (Spec.signal s))).
  { intros Hn. unfold generate_signal. rewrite Hd.
    rewrite (@score_rules_spec self df Hd Henr Hn).
    cbn [bind sc_confidence sc_signals].
    unfold Spec.signal. now rewrite classify_spec. }
  split; [exact Hlong|]. split.
  - intros Hn. now apply (generate_signal_short self Hd Henr).
  - intros Hrsi Hcross Hprev Hbelow Hbull.
    assert (Hn : (20 <= n)%nat).
    { destruct (Nat.le_gt_cases 20 n) as [H|H]; [exact H|exfalso].
      pose proof Henr as Henr'. open_enriched Henr'.
      unfold s, snapshot in Hbull. cbn [Spec.s_bullish] in Hbull.
      rewrite (@detect_divergence_short self df r Hd Hr H) in Hbull.
      discriminate. }
    rewrite (Hlong Hn). unfold Spec.signal.
    assert (E1 : Spec.rsi_points s = (20%Z, [msg_rsi_oversold])).
    { unfold Spec.rsi_points.
      now rewrite (fltb_feqb_l _ _ (of_Z 30) Hrsi). }
    assert (E2 : Spec.macd_points s = (25%Z, [msg_macd_bullish])).
    { unfold Spec.macd_points. now rewrite Hcross, Hprev. }
    assert (E3 : Spec.bollinger_points s = (15%Z, [msg_below_lower])).
    { unfold Spec.bollinger_points. now rewrite Hbelow. }
    assert (E4 : Spec.divergence_points s = (20%Z, [msg_bullish_divergence])).
    { unfold Spec.divergence_points. now rewrite Hbull. }
    unfold Spec.signed_score, Spec.reasons. rewrite E1, E2, E3, E4.
    reflexivity.
Qed.

Lemma generate_signal_scores_witness :
  generate_signal (enrich Qsqrt6 Samples.falling23)
  = Ok (Some {| action := Spec.action_text Spec.Buy;
                confidence := 35;
                signals := [msg_rsi_oversold; msg_below_lower] |}) /\
  generate_signal Samples.strongbuy20
  = Ok (Some {| action := Spec.action_text Spec.StrongBuy;
                confidence := 80;
                signals := [msg_rsi_oversold; msg_macd_bullish;
                            msg_below_lower; msg_bullish_divergence] |}) /\
  generate_signal (enrich Qsqrt6 Samples.short10) = Raise IndexError.
Proof.
  split; [|split].
  - destruct (@enrich_enriched Qsqrt6 Samples.falling23
                Samples.falling23_frame eq_refl) as (Hd & Hc & He).
    destruct (@generate_signal_scores (enrich Qsqrt6 Samples.falling23)
                (frame (enrich Qsqrt6 Samples.falling23)) Hd He)
      as (H & _ & _).
    rewrite H by (rewrite Hc; cbn; lia).
    vm_compute. reflexivity.
  - assert (He : enriched Samples.strongbuy20_frame)
      by show_enriched Samples.strongbuy20_frame.
    destruct (@generate_signal_scores Samples.strongbuy20
                Samples.strongbuy20_frame eq_refl He) as (_ & _ & H).
    apply H; vm_compute; reflexivity.
  - destruct (@enrich_enriched Qsqrt6 Samples.short10
                Samples.short10_frame eq_refl) as (Hd & Hc & He).
    destruct (@generate_signal_scores (enrich Qsqrt6 Samples.short10)
                (frame (enrich Qsqrt6 Samples.short10)) Hd He)
      as (_ & H & _).
    apply H. rewrite Hc. cbn. lia.
Defined.

(** C1, as stated, fails on short frames: the ten candles of [short10],
    enriched as [analyze] does, make [generate_signal] raise [IndexError]
    instead of reporting a signal. *)
Lemma generate_signal_counterexample :
  data (enrich Qsqrt6 Samples.short10)
  = Some (frame (enrich Qsqrt6 Samples.short10)) /\
  enriched (frame (enrich Qsqrt6 Samples.short10)) /\
  generate_signal (enrich Qsqrt6 Samples.short10) = Raise IndexError.
Proof.
  split; [reflexivity|]. split.
  - show_enriched (frame (enrich Qsqrt6 Samples.short10)).
  - vm_compute. reflexivity.
Qed.

(** C2 (amended): on a frame with an RSI column, [detect_divergence] compares
    the latest close and RSI with those at position 20 from the end, that is
    19 candles earlier.  With fewer than 20 candles it raises [IndexError].
    With at least 20 it returns both flags; both are false when the RSI is
    undefined at either position, and in particular on exactly 20 candles
    whose RSI column is the one [calculate_rsi] computes. *)
Theorem divergence_reads_position_20_from_end :
  forall (self : OrderPointAnalyzer) (df : DataFrame) (r : Series),
    data self = Some df ->
    rsi df = Some r ->
    length r = length (candles df) ->
    let n := length (candles df) in
    let c := col_close df in
    ((n < 20)%nat -> detect_divergence self = Raise IndexError) /\
    ((20 <= n)%nat ->
     detect_divergence self =
     Ok (Some {| bullish := fltb (nth (n - 1) c NaN) (nth (n - 20) c NaN)
                            && fgtb (nth (n - 1) r NaN) (nth (n - 20) r NaN);
                 bearish := fgtb (nth (n - 1) c NaN) (nth (n - 20) c NaN)
                            && fltb (nth (n - 1) r NaN) (nth (n - 20) r NaN) |})) /\
    ((20 <= n)%nat ->
     is_nan (nth (n - 1) r NaN) || is_nan (nth (n - 20) r NaN) = true ->
     detect_divergence self
     = Ok (Some {| bullish := false; bearish := false |})) /\
    (n = 20%nat ->
     forall period, r = rsi_series period c ->
     detect_divergence self
     = Ok (Some {| bullish := false; bearish := false |})).
Proof.
  intros self df r Hd Hr Hlen n c.
  assert (Hc : length c = n) by (unfold c, col_close; now rewrite length_map).
  assert (Hlong : (20 <= n)%nat ->
     detect_divergence self =
     Ok (Some {| bullish := fltb (nth (n - 1) c NaN) (nth (n - 20) c NaN)
                            && fgtb (nth (n - 1) r NaN) (nth (n - 20) r NaN);
                 bearish := fgtb (nth (n - 1) c NaN) (nth (n - 20) c NaN)
                            && fltb (nth (n - 1) r NaN) (nth (n - 20) r NaN) |})).
  { intros Hn. rewrite (detect_divergence_long self Hd Hr Hlen Hn).
    unfold from_end. fold c. rewrite Hc, Hlen. reflexivity. }
  assert (Hnan : (20 <= n)%nat ->
     is_nan (nth (n - 1) r NaN) || is_nan (nth (n - 20) r NaN) = true ->
     detect_divergence self
     = Ok (Some {| bullish := false; bearish := false |})).
  { intros Hn Hu. rewrite (Hlong Hn).
    destruct (nth (n - 1) r NaN) eqn:E1; destruct (nth (n - 20) r NaN) eqn:E2;
      try discriminate Hu; unfold fgtb;
      rewrite ?fltb_nan_l, ?fltb_nan_r, ?andb_false_r; reflexivity. }
  repeat split.
  - intros Hn. now apply (detect_divergence_short self Hd Hr).
  - exact Hlong.
  - exact Hnan.
  - intros Hn period Hrs. apply Hnan; [lia|].
    replace (n - 20)%nat with 0%nat by lia.
    assert (Hne : c <> []) by (intros E; rewrite E in Hc; cbn in Hc; lia).
    pose proof (rsi_first_entry period Hne) as H0.
    rewrite <- Hrs in H0. rewrite (nth_error_nth _ _ _ H0).
    apply orb_true_r.
Qed.

Lemma divergence_reads_position_20_from_end_witness :
  detect_divergence (fst (calculate_rsi 14 Samples.short10))
  = Raise IndexError /\
  detect_divergence (fst (calculate_rsi 14 Samples.spike34))
  = Ok (Some {| bullish := true; bearish := false |}) /\
  detect_divergence (fst (calculate_rsi 14 Samples.first20))
  = Ok (Some {| bullish := false; bearish := false |}).
Proof.
  split; [|split].
  - destruct (@divergence_reads_position_20_from_end
                (fst (calculate_rsi 14 Samples.short10))
                (set_rsi Samples.short10_frame
                   (rsi_series 14 (col_close Samples.short10_frame)))
                (rsi_series 14 (col_close Samples.short10_frame))
                eq_refl eq_refl eq_refl) as (H & _).
    apply H. cbn. lia.
  - destruct (@divergence_reads_position_20_from_end
                (fst (calculate_rsi 14 Samples.spike34))
                (set_rsi Samples.spike34_frame
                   (rsi_series 14 (col_close Samples.spike34_frame)))
                (rsi_series 14 (col_close Samples.spike34_frame))
                eq_refl eq_refl eq_refl) as (_ & H & _).
    rewrite H by (cbn; lia). vm_compute. reflexivity.
  - destruct (@divergence_reads_position_20_from_end
                (fst (calculate_rsi 14 Samples.first20))
                (set_rsi Samples.first20_frame
                   (rsi_series 14 (col_close Samples.first20_frame)))
                (rsi_series 14 (col_close Samples.first20_frame))
                eq_refl eq_refl eq_refl) as (_ & _ & _ & H).
    apply (H eq_refl 14%nat). reflexivity.
Defined.

(** C2, as stated, fails twice.  On 10 candles the detector raises
    [IndexError] where the claim has it report no divergence.  On the 34
    closes of [closes34] it reports a bullish divergence, from the row 19
    candles before the latest, where the comparison with the row 20 candles
    before the latest reports none. *)
Lemma divergence_counterexample :
  detect_divergence (fst (calculate_rsi 14 Samples.short10))
  = Raise IndexError /\
  detect_divergence (fst (calculate_rsi 14 Samples.spike34))
  = Ok (Some {| bullish := true; bearish := false |}) /\
  SpecDivergence.divergence
    (col_close Samples.spike34_frame)
    (rsi_series 14 (col_close Samples.spike34_frame))
  = {| bullish := false; bearish := false |}.
Proof. repeat split; vm_compute; reflexivity. Qed.

(** C3: a scoring rule that reads an undefined value returns the score and
    the reasons unchanged.  This holds for the RSI rule on an undefined latest
    RSI; for the MACD rule on an undefined MACD or signal value, on the latest
    or on the previous row; for the Bollinger rule on an undefined latest
    close, and on an undefined latest band among the bands that
    [calculate_bollinger_bands] stored; and for the divergence rule on an
    undefined close or RSI at either of its two rows.  On a series shorter
    than the Bollinger period every band value is undefined and the Bollinger
    rule does not fire. *)
Theorem undefined_inputs_skip_rules :
  forall (st : Score),
    (forall df s,
        rsi df = Some s -> iloc s (-1) = Ok NaN -> rsi_rule df st = Ok st) /\
    (forall df m s x y,
        macd df = Some m -> macd_signal df = Some s ->
        iloc m (-1) = Ok x -> iloc s (-1) = Ok y ->
        is_nan x || is_nan y = true ->
        macd_rule df st = Ok st) /\
    (forall df m s x y x' y',
        macd df = Some m -> macd_signal df = Some s ->
        iloc m (-1) = Ok x -> iloc s (-1) = Ok y ->
        iloc m (-2) = Ok x' -> iloc s (-2) = Ok y' ->
        is_nan x' || is_nan y' = true ->
        macd_rule df st = Ok st) /\
    (forall df lo up l u,
        bb_lower df = Some lo -> bb_upper df = Some up ->
        iloc (col_close df) (-1) = Ok NaN ->
        iloc lo (-1) = Ok l -> iloc up (-1) = Ok u ->
        bollinger_rule df st = Ok st) /\
    (forall sqrtQ period std_dev self df l u,
        data self = Some df ->
        let df' :=
          frame (fst (calculate_bollinger_bands sqrtQ period std_dev self)) in
        iloc (column (bb_lower df')) (-1) = Ok l ->
        iloc (column (bb_upper df')) (-1) = Ok u ->
        is_nan l || is_nan u = true ->
        bollinger_rule df' st = Ok st) /\
    (forall self df r,
        data self = Some df -> rsi df = Some r ->
        length r = length (candles df) -> (20 <= length (candles df))%nat ->
        is_nan (from_end r 1) || is_nan (from_end r 20) = true \/
        is_nan (from_end (col_close df) 1)
        || is_nan (from_end (col_close df) 20) = true ->
        divergence_rule self st = Ok st) /\
    (forall sqrtQ period std_dev self df,
        data self = Some df ->
        (1 <= length (candles df) < period)%nat ->
        let df' :=
          frame (fst (calculate_bollinger_bands sqrtQ period std_dev self)) in
        (forall i v,
            nth_error (column (bb_upper df')) i = Some v \/
            nth_error (column (bb_middle df')) i = Some v \/
            nth_error (column (bb_lower df')) i = Some v ->
            v = NaN) /\
        bollinger_rule df' st = Ok st).
Proof.
  intros st. repeat match goal with |- _ /\ _ => split end.
  - intros df s. apply rsi_rule_nan.
  - intros df m s x y. apply macd_rule_nan_last.
  - intros df m s x y x' y'. apply macd_rule_nan_prev.
  - intros df lo up l u. apply bollinger_rule_nan_price.
  - intros sqrtQ p k self df l u Hd.
    now apply (@bollinger_rule_computed_nan sqrtQ p k self df st l u).
  - intros self df r. apply divergence_rule_nan.
  - intros sqrtQ p k self df Hd Hn df'.
    assert (Hall : forall i v,
               nth_error (column (bb_upper df')) i = Some v \/
               nth_error (column (bb_middle df')) i = Some v \/
               nth_error (column (bb_lower df')) i = Some v -> v = NaN).
    { intros i v H. subst df'.
      rewrite (bollinger_frame sqrtQ p k self Hd) in H. cbv zeta in H.
      cbn [bb_upper bb_middle bb_lower set_bb column] in H.
      assert (Hi : (i < length (col_close df))%nat).
      { pose proof (bollinger_lengths sqrtQ p k (col_close df)) as HL.
        destruct (bollinger_series sqrtQ p k (col_close df)) as [[up sm] lo].
        cbn [fst snd] in H. destruct HL as (H1 & H2 & H3).
        destruct H as [H|[H|H]];
          [rewrite <- H1 | rewrite <- H2 | rewrite <- H3];
          apply nth_error_Some; congruence. }
      apply (@early_bands_undefined sqrtQ p k (col_close df) i v);
        [|exact H].
      unfold col_close in Hi. rewrite length_map in Hi. lia. }
    split; [exact Hall|].
    pose proof (bollinger_lengths sqrtQ p k (col_close df)) as HL.
    assert (Lc : length (col_close df) = length (candles df))
      by apply length_map.
    assert (Hlo : exists lo, bb_lower df' = Some lo
                             /\ length lo = length (candles df)).
    { subst df'. rewrite (bollinger_frame sqrtQ p k self Hd). cbv zeta.
      destruct (bollinger_series sqrtQ p k (col_close df)) as [[up sm] lo].
      exists lo. split; [reflexivity|]. cbn [snd]. lia. }
    assert (Hup : exists up, bb_upper df' = Some up
                             /\ length up = length (candles df)).
    { subst df'. rewrite (bollinger_frame sqrtQ p k self Hd). cbv zeta.
      destruct (bollinger_series sqrtQ p k (col_close df)) as [[up sm] lo].
      exists up. split; [reflexivity|]. cbn [fst]. lia. }
    destruct Hlo as (lo & Elo & Llo). destruct Hup as (up & Eup & Lup).
    apply (@bollinger_rule_computed_nan sqrtQ p k self df st
             (from_end lo 1) (from_end up 1) Hd); fold df'.
    + rewrite Elo. apply iloc_last. lia.
    + rewrite Eup. apply iloc_last. lia.
    + rewrite (Hall (length lo - 1)%nat (from_end lo 1)); [reflexivity|].
      right. right. rewrite Elo. apply from_end_nth_error. lia.
Qed.

Lemma undefined_inputs_skip_rules_witness :
  rsi_rule (frame (fst (calculate_rsi 14 Samples.short10))) initial_score
  = Ok initial_score /\
  bollinger_rule
    (frame (fst (calculate_bollinger_bands Qsqrt6 20 2 Samples.short10)))
    initial_score
  = Ok initial_score.
Proof.
  destruct (undefined_inputs_skip_rules initial_score)
    as (H1 & _ & _ & _ & _ & _ & H7).
  split.
  - apply (H1 _ (rsi_series 14 (col_close Samples.short10_frame)));
      vm_compute; reflexivity.
  - apply (H7 Qsqrt6 20%nat 2 Samples.short10 Samples.short10_frame eq_refl).
    cbn. lia.
Defined.



(** C5: every entry of the series that [calculate_rsi] returns is undefined
    or lies between 0 and 100, both included, whatever the closes and the
    period. *)
Theorem rsi_between_0_and_100 :
  forall (period : nat) (self : OrderPointAnalyzer) (df : DataFrame)
         (r : Series) (i : nat) (v : num),
    data self = Some df ->
    snd (calculate_rsi period self) = Some r ->
    nth_error r i = Some v ->
    is_nan v = false ->
    between (of_Z 0) (of_Z 100) v.
Proof.
  intros period self df r i v Hd Hr Hi Hv.
  unfold calculate_rsi in Hr. rewrite Hd in Hr. cbn [snd] in Hr.
  injection Hr as <-. now apply (rsi_entry_range period (col_close df) i).
Qed.

Lemma rsi_between_0_and_100_witness :
  nth_error (rsi_series 14 (col_close Samples.falling23_frame)) 22
  = Some (Fin 25) /\
  between (of_Z 0) (of_Z 100) (Fin 25).
Proof.
  split; [vm_compute; reflexivity|].
  apply (@rsi_between_0_and_100 14 Samples.falling23 Samples.falling23_frame
           (rsi_series 14 (col_close Samples.falling23_frame)) 22 (Fin 25)).
  - reflexivity.
  - reflexivity.
  - vm_compute. reflexivity.
  - reflexivity.
Defined.

(** C6: [find_support_resistance] returns, as support, the at most three
    highest values among the support candidates, in strictly decreasing
    order, and as resistance the at most three lowest values among the
    resistance candidates, in strictly increasing order.  A support candidate
    is a low at an index [i] of [range(window, n - window)] that equals the
    least low of the slice [i - window : i + window]; a resistance candidate
    is a high at such an index that equals the greatest high of the slice.
    Equal candidate values are listed once. *)
Theorem support_resistance_best_three :
  forall (window : nat) (self : OrderPointAnalyzer) (df : DataFrame),
    data self = Some df ->
    exists lv : Levels,
      find_support_resistance window self = Some lv /\
      best_three fgtb (support_candidate window (col_low df)) (support lv) /\
      best_three fltb (resistance_candidate window (col_high df))
                 (resistance lv).
Proof.
  intros window self df Hd. unfold find_support_resistance. rewrite Hd.
  pose proof (support_candidates_spec window df) as Hsup.
  pose proof (resistance_candidates_spec window df) as Hres.
  destruct (level_candidates window df) as [sup res].
  cbn [fst snd] in Hsup, Hres.
  eexists. split; [reflexivity|]. cbn [support resistance]. split.
  - apply first_three.
    + intros u v c Hcv Huv. unfold fgtb in *.
      now rewrite (fltb_feqb_l c v u Hcv).
    + apply sorted_reverse_sorted; [|apply set_distinct].
      apply Forall_forall. intros v Hv. apply set_incl in Hv.
      apply (@support_candidate_defined window df v). now apply Hsup.
    + intros v Hv. apply (proj1 (sorted_reverse_In _ _)) in Hv.
      apply set_incl in Hv. now apply Hsup.
    + intros c Hc.
      destruct (@set_covers sup c) as (v & Hv & Hcv).
      * now apply Hsup.
      * now apply (@support_candidate_defined window df c).
      * exists v. split; [|exact Hcv]. now apply sorted_reverse_In.
  - apply first_three.
    + intros u v c Hcv Huv. now rewrite (fltb_feqb_r c v u Hcv).
    + apply sorted_sorted; [|apply set_distinct].
      apply Forall_forall. intros v Hv. apply set_incl in Hv.
      apply (@resistance_candidate_defined window df v). now apply Hres.
    + intros v Hv. apply (proj1 (sorted_In _ _)) in Hv.
      apply set_incl in Hv. now apply Hres.
    + intros c Hc.
      destruct (@set_covers res c) as (v & Hv & Hcv).
      * now apply Hres.
      * now apply (@resistance_candidate_defined window df c).
      * exists v. split; [|exact Hcv]. now apply sorted_In.
Qed.

Lemma support_resistance_best_three_witness :
  find_support_resistance 1 Samples.zigzag14
  = Some {| support := [Fin 39; Fin 35; Fin 33];
            resistance := [Fin 57; Fin 59; Fin 61] |} /\
  fst (level_candidates 1 Samples.zigzag14_frame)
  = [Fin 35; Fin 33; Fin 31; Fin 33; Fin 29; Fin 39] /\
  best_three fgtb (support_candidate 1 (col_low Samples.zigzag14_frame))
             [Fin 39; Fin 35; Fin 33] /\
  best_three fltb (resistance_candidate 1 (col_high Samples.zigzag14_frame))
             [Fin 57; Fin 59; Fin 61].
Proof.
  split; [vm_compute; reflexivity|]. split; [vm_compute; reflexivity|].
  destruct (@support_resistance_best_three 1 Samples.zigzag14
              Samples.zigzag14_frame eq_refl) as (lv & Hlv & Hs & Hr).
  assert (E : lv = {| support := [Fin 39; Fin 35; Fin 33];
                      resistance := [Fin 57; Fin 59; Fin 61] |}).
  { assert (E' : find_support_resistance 1 Samples.zigzag14
                 = Some {| support := [Fin 39; Fin 35; Fin 33];
                           resistance := [Fin 57; Fin 59; Fin 61] |})
      by (vm_compute; reflexivity).
    rewrite E' in Hlv. now injection Hlv as <-. }
  rewrite E in Hs, Hr. split; assumption.
Defined.






(** C9: at an index where the average loss of the window is zero, the RSI is
    exactly 100 when the average gain is positive; when the average gain is
    zero as well the RSI is undefined, and the RSI rule of the aggregator,
    reading that entry as the latest, leaves the score and the reasons
    unchanged.  Such an index has a full window.  Both averages are zero, and
    the RSI undefined, on every full window over which the closes stay at one
    finite value. *)
Theorem rsi_without_losses :
  forall (period : nat) (closes : Series) (i : nat),
    (forall g l : num,
        nth_error (rsi_gain period closes) i = Some g ->
        nth_error (rsi_loss period closes) i = Some l ->
        feqb l (of_Z 0) = true ->
        (period <= S i)%nat /\
        (fgtb g (of_Z 0) = true ->
         nth_error (rsi_series period closes) i = Some (Fin 100)) /\
        (feqb g (of_Z 0) = true ->
         nth_error (rsi_series period closes) i = Some NaN /\
         forall (df : DataFrame) (st : Score),
           rsi df = Some (rsi_series period closes) ->
           S i = length closes ->
           rsi_rule df st = Ok st)) /\
    (forall c : Q,
        (1 <= period <= S i)%nat ->
        (i < length closes)%nat ->
        (forall j v, (i - period <= j <= i)%nat ->
                     nth_error closes j = Some v -> feqb v (Fin c) = true) ->
        nth_error (rsi_gain period closes) i = Some (Fin 0) /\
        nth_error (rsi_loss period closes) i = Some (Fin 0) /\
        nth_error (rsi_series period closes) i = Some NaN).
Proof.
  intros period closes i. split.
  - intros g l Hg Hl Hz. split; [|split].
    + apply rolling_nth_error in Hl as [_ Hl].
      destruct (Nat.ltb_spec (S i) period); [|lia].
      subst l. discriminate.
    + intros Hpos. apply rsi_series_entry. exists g, l.
      repeat split; try assumption.
      now rewrite (rs_no_loss_some_gain _ _ Hz Hpos).
    + intros Hzero.
      assert (E : nth_error (rsi_series period closes) i = Some NaN).
      { apply rsi_series_entry. exists g, l. repeat split; try assumption.
        now rewrite (rs_no_loss_no_gain _ _ Hz Hzero). }
      split; [exact E|].
      intros df st Hr Hlen.
      assert (Hn : length (rsi_series period closes) = S i).
      { unfold rsi_series, rsi_gain, rsi_loss.
        rewrite length_map, map2_length, !rolling_length, length_map,
          !where_length, diff_length. lia. }
      apply (@rsi_rule_read df st (rsi_series period closes) NaN Hr).
      rewrite iloc_last by lia. f_equal. unfold from_end. rewrite Hn.
      replace (S i - 1)%nat with i by lia.
      now apply nth_error_nth.
  - intros c Hp Hi Hstill.
    pose proof (@still_window_gain period closes i c Hp Hi Hstill) as Hg.
    pose proof (@still_window_loss period closes i c Hp Hi Hstill) as Hl.
    repeat split; try assumption.
    apply rsi_series_entry. exists (Fin 0), (Fin 0). now repeat split.
Qed.

Lemma rsi_without_losses_witness :
  nth_error (rsi_series 14 (map Fin Samples.rising16)) 15 = Some (Fin 100) /\
  nth_error (rsi_series 14 Samples.still16) 15 = Some NaN /\
  forall (df : DataFrame) (st : Score),
    rsi df = Some (rsi_series 14 Samples.still16) -> rsi_rule df st = Ok st.
Proof.
  destruct (rsi_without_losses 14 (map Fin Samples.rising16) 15) as [Hr _].
  destruct (rsi_without_losses 14 Samples.still16 15) as [Hs Hw].
  split; [|split].
  - apply (Hr (Fin 1) (Fin 0)); vm_compute; reflexivity.
  - apply (Hw 7); try (cbn; lia).
    intros j v _ Hv. apply nth_error_In in Hv.
    apply repeat_spec in Hv. subst v. reflexivity.
  - intros df st H.
    apply (Hs (Fin 0) (Fin 0)); try (vm_compute; reflexivity). exact H.
Defined.

(** C10: whenever [generate_signal] reports a signal, the score behind it is
    the sum of one contribution per rule, taken from 0, 20, -20 for the RSI
    rule, 0, 25, -25 for the MACD rule, 0, 15, -15 for the Bollinger rule and
    0, 20, -20 for the divergence rule, with one reason for each contribution
    that is not 0; the score lies between -80 and 80 and is a multiple of 5,
    and the reported confidence, its absolute value, is at most 80. *)
Theorem score_within_80 :
  forall (self : OrderPointAnalyzer) (sig : Signal),
    generate_signal self = Ok (Some sig) ->
    exists (df : DataFrame) (st : Score) (c1 c2 c3 c4 : Z),
      data self = Some df /\
      score_rules self df = Ok st /\
      In c1 [0; 20; -20]%Z /\ In c2 [0; 25; -25]%Z /\
      In c3 [0; 15; -15]%Z /\ In c4 [0; 20; -20]%Z /\
      sc_confidence st = (c1 + c2 + c3 + c4)%Z /\
      length (sc_signals st)
      = ((if (c1 =? 0)%Z then 0 else 1) + (if (c2 =? 0)%Z then 0 else 1)
         + (if (c3 =? 0)%Z then 0 else 1) + (if (c4 =? 0)%Z then 0 else 1))%nat /\
      (-80 <= sc_confidence st <= 80)%Z /\
      (5 | sc_confidence st)%Z /\
      signals sig = sc_signals st /\
      confidence sig = Z.abs (sc_confidence st) /\
      (0 <= confidence sig <= 80)%Z.
Proof.
  intros self sig H. unfold generate_signal in H.
  destruct (data self) as [df|] eqn:Hd; [|discriminate].
  destruct (score_rules self df) as [st|e] eqn:Hs; [|discriminate].
  cbn [bind] in H. injection H as <-.
  pose proof Hs as Hrules. unfold score_rules in Hrules.
  destruct (rsi_rule df _) as [s1|] eqn:E1; [|discriminate]. cbn [bind] in Hrules.
  destruct (macd_rule df s1) as [s2|] eqn:E2; [|discriminate]. cbn [bind] in Hrules.
  destruct (bollinger_rule df s2) as [s3|] eqn:E3; [|discriminate].
  cbn [bind] in Hrules.
  apply rsi_rule_contributes in E1 as (c1 & I1 & K1).
  apply macd_rule_contributes in E2 as (c2 & I2 & K2).
  apply bollinger_rule_contributes in E3 as (c3 & I3 & K3).
  apply divergence_rule_contributes in Hrules as (c4 & I4 & K4).
  pose proof (contributes_confidence K1) as P1.
  pose proof (contributes_confidence K2) as P2.
  pose proof (contributes_confidence K3) as P3.
  pose proof (contributes_confidence K4) as P4.
  pose proof (contributes_reasons K1) as R1.
  pose proof (contributes_reasons K2) as R2.
  pose proof (contributes_reasons K3) as R3.
  pose proof (contributes_reasons K4) as R4.
  cbn [sc_confidence sc_signals length] in P1, R1.
  assert (Hsum : sc_confidence st = (c1 + c2 + c3 + c4)%Z) by lia.
  assert (B1 : (-20 <= c1 <= 20)%Z /\ (5 | c1)%Z).
  { cbn in I1. destruct I1 as [<-|[<-|[<-|[]]]]; split; try lia;
      [exists 0%Z | exists 4%Z | exists (-4)%Z]; reflexivity. }
  assert (B2 : (-25 <= c2 <= 25)%Z /\ (5 | c2)%Z).
  { cbn in I2. destruct I2 as [<-|[<-|[<-|[]]]]; split; try lia;
      [exists 0%Z | exists 5%Z | exists (-5)%Z]; reflexivity. }
  assert (B3 : (-15 <= c3 <= 15)%Z /\ (5 | c3)%Z).
  { cbn in I3. destruct I3 as [<-|[<-|[<-|[]]]]; split; try lia;
      [exists 0%Z | exists 3%Z | exists (-3)%Z]; reflexivity. }
  assert (B4 : (-20 <= c4 <= 20)%Z /\ (5 | c4)%Z).
  { cbn in I4. destruct I4 as [<-|[<-|[<-|[]]]]; split; try lia;
      [exists 0%Z | exists 4%Z | exists (-4)%Z]; reflexivity. }
  exists df, st, c1, c2, c3, c4. cbn [confidence signals].
  repeat match goal with |- _ /\ _ => split end;
    try assumption; try reflexivity; try lia.
  rewrite Hsum. repeat apply Z.divide_add_r; tauto.
Qed.

Lemma score_within_80_witness :
  generate_signal (enrich Qsqrt6 Samples.falling23)
  = Ok (Some {| action := Spec.action_text Spec.Buy;
                confidence := 35;
                signals := [msg_rsi_oversold; msg_below_lower] |}) /\
  (0 <= 35 <= 80)%Z.
Proof.
  assert (H : generate_signal (enrich Qsqrt6 Samples.falling23)
              = Ok (Some {| action := Spec.action_text Spec.Buy;
                            confidence := 35;
                            signals := [msg_rsi_oversold; msg_below_lower] |}))
    by (vm_compute; reflexivity).
  split; [exact H|].
  destruct (score_within_80 _ H)
    as (df & st & c1 & c2 & c3 & c4 & _ & _ & _ & _ & _ & _ & _ & _ & _ & _
        & _ & _ & Hc).
  exact Hc.
Defined.

(** * Further properties *)

(** ** Volume profile *)

Module VolumeFacts.






End VolumeFacts.

Import VolumeFacts.

(** X1: with a table, [calculate_volume_profile] raises [IndexError] exactly
    when the table has no row.  Otherwise it returns a profile whose current
    volume is the latest one; a ratio that is undefined (no defined volume, a
    zero average against a zero volume) never counts as high volume. *)
Theorem volume_profile_needs_a_row :
  forall (self : OrderPointAnalyzer) (df : DataFrame),
    data self = Some df ->
    (candles df = [] -> calculate_volume_profile self = Raise IndexError) /\
    (candles df <> [] ->
     exists vp,
       calculate_volume_profile self = Ok (Some vp) /\
       average vp = smean (col_volume df) /\
       current vp = from_end (col_volume df) 1 /\
       ratio vp = fdiv (current vp) (average vp) /\
       (is_nan (ratio vp) = true -> high_volume vp = false)).
Proof.
  intros self df Hd. unfold calculate_volume_profile. rewrite Hd. split.
  - intros E. unfold col_volume. rewrite E. reflexivity.
  - intros Hne.
    assert (Hn : (1 <= length (col_volume df))%nat).
    { unfold col_volume. rewrite length_map.
      destruct (candles df); [contradiction|cbn; lia]. }
    rewrite (iloc_last _ Hn). cbn [bind].
    eexists. split; [reflexivity|]. cbn [average current ratio high_volume].
    repeat split.
    intros Hnan. unfold fgtb.
    destruct (fdiv _ _); try discriminate Hnan. reflexivity.
Qed.

Lemma volume_profile_needs_a_row_witness :
  calculate_volume_profile (Samples.analyzer (new_frame [])) = Raise IndexError
  /\ exists vp, calculate_volume_profile Samples.short10 = Ok (Some vp)
                /\ current vp = Fin 1.
Proof.
  split.
  - apply (@volume_profile_needs_a_row (Samples.analyzer (new_frame []))
             (new_frame []) eq_refl). reflexivity.
  - destruct (@volume_profile_needs_a_row Samples.short10
                Samples.short10_frame eq_refl) as [_ H].
    destruct H as (vp & Hvp & _ & Hc & _); [discriminate|].
    exists vp. split; [exact Hvp|]. rewrite Hc. reflexivity.
Defined.



(** ** The RSI before its first full window, and without gains *)

Lemma rs_no_gain_some_loss (g l : num) :
  feqb g (of_Z 0) = true -> fgtb l (of_Z 0) = true -> fdiv g l = Fin 0.
Proof.
  intros Hg Hl. apply feqb_zero in Hg as (a & -> & Ha).
  apply fgtb_zero in Hl as [->|(b & -> & Hb)]; [reflexivity|].
  rewrite fdiv_fin by lra.
  change (Fin 0) with (fin 0). apply fin_eq. rewrite Ha. field. lra.
Qed.

(** X3: [calculate_rsi] stores the series it returns, one entry per candle.
    Every entry before index [period - 1] is undefined, and so is the first
    entry whatever the period. *)
Theorem rsi_warm_up :
  forall (period : nat) (self : OrderPointAnalyzer) (df : DataFrame),
    data self = Some df ->
    exists r : Series,
      calculate_rsi period self = (with_data self (set_rsi df r), Some r) /\
      length r = length (candles df) /\
      (forall i, (i < length (candles df))%nat -> (S i < period)%nat ->
                 nth_error r i = Some NaN) /\
      (candles df <> [] -> nth_error r 0 = Some NaN).
Proof.
  intros period self df Hd. exists (rsi_series period (col_close df)).
  assert (Lc : length (col_close df) = length (candles df))
    by apply length_map.
  split; [unfold calculate_rsi; now rewrite Hd|].
  split; [now rewrite rsi_series_length|]. split.
  - intros i Hi Hp. apply rsi_series_entry. exists NaN, NaN.
    assert (Hlt : (S i <? period)%nat = true) by now apply Nat.ltb_lt.
    repeat split.
    + apply rolling_nth_error. rewrite where_length, diff_length, Lc.
      split; [exact Hi|]. now rewrite Hlt.
    + apply rolling_nth_error.
      rewrite length_map, where_length, diff_length, Lc.
      split; [exact Hi|]. now rewrite Hlt.
  - intros Hne. apply rsi_first_entry. unfold col_close.
    destruct (candles df); [contradiction|discriminate].
Qed.

Lemma rsi_warm_up_witness :
  exists r : Series,
    snd (calculate_rsi 14 Samples.falling23) = Some r /\
    length r = 23%nat /\ nth_error r 12 = Some NaN.
Proof.
  destruct (@rsi_warm_up 14 Samples.falling23 Samples.falling23_frame eq_refl)
    as (r & Hc & Hl & Hp & _).
  exists r. split; [now rewrite Hc|]. split; [exact Hl|].
  apply Hp; cbn; lia.
Defined.

(** X4: at an index where the average gain of the window is zero and the
    average loss is positive, the RSI is exactly 0. *)
Theorem rsi_without_gains :
  forall (period : nat) (closes : Series) (i : nat) (g l : num),
    nth_error (rsi_gain period closes) i = Some g ->
    nth_error (rsi_loss period closes) i = Some l ->
    feqb g (of_Z 0) = true ->
    fgtb l (of_Z 0) = true ->
    nth_error (rsi_series period closes) i = Some (Fin 0).
Proof.
  intros period closes i g l Hg Hl Hz Hpos.
  apply rsi_series_entry. exists g, l. repeat split; try assumption.
  now rewrite (rs_no_gain_some_loss _ _ Hz Hpos).
Qed.

Lemma rsi_without_gains_witness :
  nth_error (rsi_series 14 (map Fin (rev Samples.rising16))) 15
  = Some (Fin 0).
Proof.
  apply (@rsi_without_gains 14 (map Fin (rev Samples.rising16)) 15
           (Fin 0) (Fin 1)); vm_compute; reflexivity.
Defined.

(** ** Bounds on the moving averages and on the MACD *)

Module BoundFacts.

Lemma alpha_range (span : positive) :
  0 < 2 # (span + 1) /\ 2 # (span + 1) <= 1.
Proof. unfold Qlt, Qle. cbn. lia. Qed.

Lemma ewm_step_within (alpha lo hi : Q) (prev x : num) :
  0 <= alpha <= 1 -> within lo hi prev -> within lo hi x ->
  within lo hi (fadd (fmul (Fin (1 - alpha)) prev) (fmul (Fin alpha) x)).
Proof.
  intros Ha (p & -> & Hp) (q & -> & Hq).
  rewrite !fmul_fin, fadd_fin. eexists. split; [reflexivity|].
  rewrite !Qred_correct. split; nra.
Qed.

Lemma ewm_from_within (alpha lo hi : Q) (s : Series) :
  0 <= alpha <= 1 ->
  forall prev, within lo hi prev -> Forall (within lo hi) s ->
               Forall (within lo hi) (ewm_from alpha prev s).
Proof.
  intros Ha. induction s as [|x t IH]; intros prev Hp Hs; cbn [ewm_from];
    [constructor|].
  apply Forall_cons_iff in Hs as [Hx Ht].
  assert (Hy := ewm_step_within Ha Hp Hx).
  constructor; [exact Hy|]. now apply IH.
Qed.

(** An exponential moving average stays within the range of its values. *)
Lemma ewm_mean_within (span : positive) (lo hi : Q) (s : Series) :
  Forall (within lo hi) s -> Forall (within lo hi) (ewm_mean span s).
Proof.
  intros Hs. destruct s as [|x t]; [constructor|]. cbn [ewm_mean].
  apply Forall_cons_iff in Hs as [Hx Ht].
  constructor; [exact Hx|].
  apply ewm_from_within; try assumption.
  destruct (alpha_range span). lra.
Qed.

Lemma map2_Forall (f : num -> num -> num) (P Q R : num -> Prop)
    (s t : Series) :
  (forall a b, P a -> Q b -> R (f a b)) ->
  Forall P s -> Forall Q t -> Forall R (map2 f s t).
Proof.
  intros Hf Hs. revert t. induction Hs as [|a s Ha Hs IH]; intros t Ht;
    [constructor|].
  destruct Ht as [|b t Hb Ht]; [constructor|].
  cbn [map2]. constructor; [now apply Hf | now apply IH].
Qed.

Lemma fsub_within (lo1 hi1 lo2 hi2 : Q) (a b : num) :
  within lo1 hi1 a -> within lo2 hi2 b ->
  within (lo1 - hi2) (hi1 - lo2) (fsub a b).
Proof.
  intros (p & -> & Hp) (q & -> & Hq). rewrite fsub_fin.
  eexists. split; [reflexivity|]. rewrite Qred_correct. lra.
Qed.

End BoundFacts.

Import BoundFacts.

(** X5: when every close is finite and lies between [lo] and [hi], every
    MACD value and every signal value that [calculate_macd] returns is finite
    and within [hi - lo] of zero, and every histogram value within twice
    that. *)
Theorem macd_bounded_by_price_range :
  forall (fast slow signal : positive) (self : OrderPointAnalyzer)
         (df : DataFrame) (lo hi : Q) (m s h : Series),
    data self = Some df ->
    Forall (within lo hi) (col_close df) ->
    snd (calculate_macd fast slow signal self) = Some (m, s, h) ->
    Forall (within (lo - hi) (hi - lo)) m /\
    Forall (within (lo - hi) (hi - lo)) s /\
    Forall (within (lo - hi - (hi - lo)) (hi - lo - (lo - hi))) h.
Proof.
  intros fast slow signal self df lo hi m s h Hd Hc Hr.
  unfold calculate_macd in Hr. rewrite Hd in Hr. unfold macd_series in Hr.
  cbn [snd] in Hr. injection Hr as <- <- <-.
  assert (Hm : Forall (within (lo - hi) (hi - lo))
                 (map2 fsub (ewm_mean fast (col_close df))
                            (ewm_mean slow (col_close df)))).
  { apply (@map2_Forall fsub (within lo hi) (within lo hi)).
    - intros a b. apply fsub_within.
    - now apply ewm_mean_within.
    - now apply ewm_mean_within. }
  assert (Hs : Forall (within (lo - hi) (hi - lo))
                 (ewm_mean signal
                    (map2 fsub (ewm_mean fast (col_close df))
                               (ewm_mean slow (col_close df)))))
    by now apply ewm_mean_within.
  repeat split; try assumption.
  apply (@map2_Forall fsub (within (lo - hi) (hi - lo))
           (within (lo - hi) (hi - lo))); try assumption.
  intros a b. apply fsub_within.
Qed.

Lemma macd_bounded_by_price_range_witness :
  exists m s h,
    snd (calculate_macd 12 26 9 Samples.short10) = Some (m, s, h) /\
    Forall (within (100 - 109) (109 - 100)) m.
Proof.
  set (r := macd_series 12 26 9 (col_close Samples.short10_frame)).
  exists (fst (fst r)), (snd (fst r)), (snd r).
  split; [reflexivity|].
  apply (@macd_bounded_by_price_range 12 26 9 Samples.short10
           Samples.short10_frame 100 109 (fst (fst r)) (snd (fst r)) (snd r)
           eq_refl); [|reflexivity].
  repeat constructor; (eexists; split; [reflexivity|]; split;
                       unfold Qle; cbn; lia).
Defined.

Module FlatFacts.

Lemma ewm_from_zero (alpha : Q) (s : Series) :
  Forall zero s -> Forall zero (ewm_from alpha (Fin 0) s).
Proof.
  induction 1 as [|x t Hx Ht IH]; cbn [ewm_from]; [constructor|].
  rewrite Hx, !fmul_fin, fadd_fin.
  assert (E : Qred (Qred ((1 - alpha) * 0) + Qred (alpha * 0)) = 0).
  { apply (Qred_complete _ 0). rewrite !Qred_correct. ring. }
  rewrite E. constructor; [reflexivity|exact IH].
Qed.

Lemma ewm_mean_zero (span : positive) (s : Series) :
  Forall zero s -> Forall zero (ewm_mean span s).
Proof.
  intros Hs. destruct Hs as [|x t Hx Ht]; [constructor|]. cbn [ewm_mean].
  constructor; [exact Hx|]. rewrite Hx. now apply ewm_from_zero.
Qed.

Lemma fsub_same (c : Q) (a b : num) :
  within c c a -> within c c b -> zero (fsub a b).
Proof.
  intros (p & -> & Hp) (q & -> & Hq). unfold zero. rewrite fsub_fin.
  f_equal. apply (Qred_complete _ 0). lra.
Qed.

Lemma fsub_zero (a b : num) : zero a -> zero b -> zero (fsub a b).
Proof. intros -> ->. reflexivity. Qed.

Lemma from_end_Forall (P : num -> Prop) (s : Series) :
  Forall P s -> (1 <= length s)%nat -> P (from_end s 1).
Proof.
  intros H Hn. apply (proj1 (Forall_forall P s) H).
  unfold from_end. apply nth_In. lia.
Qed.

End FlatFacts.

Import FlatFacts.

(** X6: on a table whose closes all equal one finite value, the MACD, the
    signal line and the histogram that [calculate_macd] returns are zero at
    every index, and on the table it leaves the MACD rule of the aggregator
    does not fire. *)
Theorem macd_flat_on_still_closes :
  forall (fast slow signal : positive) (self : OrderPointAnalyzer)
         (df : DataFrame) (c : Q) (m s h : Series),
    data self = Some df ->
    Forall (within c c) (col_close df) ->
    snd (calculate_macd fast slow signal self) = Some (m, s, h) ->
    Forall zero m /\ Forall zero s /\ Forall zero h /\
    (candles df <> [] ->
     forall st,
       macd_rule (frame (fst (calculate_macd fast slow signal self))) st
       = Ok st).
Proof.
  intros fast slow signal self df c m s h Hd Hc Hr.
  assert (Hf : frame (fst (calculate_macd fast slow signal self))
               = set_macd df m s h).
  { unfold calculate_macd in *. rewrite Hd in *.
    destruct (macd_series fast slow signal (col_close df)) as [[m' s'] h'].
    cbn [snd] in Hr. injection Hr as -> -> ->. reflexivity. }
  unfold calculate_macd in Hr. rewrite Hd in Hr. unfold macd_series in Hr.
  cbn [snd] in Hr. injection Hr as Em Es Eh.
  assert (Hm : Forall zero m).
  { rewrite <- Em.
    apply (@map2_Forall fsub (within c c) (within c c)).
    - intros a b. apply fsub_same.
    - now apply ewm_mean_within.
    - now apply ewm_mean_within. }
  assert (Hs : Forall zero s).
  { rewrite <- Es, Em. now apply ewm_mean_zero. }
  assert (Hh : Forall zero h).
  { rewrite <- Eh, Es, Em.
    apply (@map2_Forall fsub zero zero); try assumption.
    intros a b. apply fsub_zero. }
  repeat split; try assumption.
  intros Hne st. rewrite Hf.
  assert (Lm : length m = length (candles df)).
  { rewrite <- Em, map2_length, !ewm_mean_length.
    unfold col_close. rewrite length_map. lia. }
  assert (Ls : length s = length (candles df)).
  { rewrite <- Es, ewm_mean_length. rewrite <- Em in Lm. exact Lm. }
  assert (Hn : (1 <= length (candles df))%nat)
    by (destruct (candles df); [contradiction|cbn; lia]).
  apply (@macd_rule_level (set_macd df m s h) st m s (Fin 0) (Fin 0));
    try reflexivity.
  - rewrite iloc_last by lia. f_equal. apply from_end_Forall; [exact Hm|lia].
  - rewrite iloc_last by lia. f_equal. apply from_end_Forall; [exact Hs|lia].
Qed.

Lemma macd_flat_on_still_closes_witness :
  snd (calculate_macd 12 26 9 (Samples.analyzer
         (new_frame (repeat (Samples.flat 7) 5))))
  = Some (repeat (Fin 0) 5, repeat (Fin 0) 5, repeat (Fin 0) 5) /\
  Forall zero (repeat (Fin 0) 5).
Proof.
  split; [vm_compute; reflexivity|].
  apply (@macd_flat_on_still_closes 12 26 9
           (Samples.analyzer (new_frame (repeat (Samples.flat 7) 5)))
           (new_frame (repeat (Samples.flat 7) 5)) 7
           (repeat (Fin 0) 5) (repeat (Fin 0) 5) (repeat (Fin 0) 5) eq_refl).
  - repeat constructor; (exists 7; split; [reflexivity|lra]).
  - vm_compute. reflexivity.
Defined.

(** ** Means of finite values *)

Module MeanFacts.

Lemma Qof_nat_succ (n : nat) :
  (Z.of_nat (S n) # 1) == (Z.of_nat n # 1) + 1.
Proof. unfold Qeq, Qplus. cbn [Qnum Qden]. lia. Qed.

Lemma fsum_within (lo hi : Q) (w : Series) :
  Forall (within lo hi) w ->
  within ((Z.of_nat (length w) # 1) * lo) ((Z.of_nat (length w) # 1) * hi)
         (fsum w).
Proof.
  induction 1 as [|x w (q & -> & Hq) _ (sq & IH & Hs)].
  - exists 0. split; [reflexivity|]. cbn [length Z.of_nat]. lra.
  - rewrite fsum_cons, IH, fadd_fin. eexists. split; [reflexivity|].
    cbn [length]. rewrite Qred_correct, Qof_nat_succ. lra.
Qed.

(** The mean of finite values lies between their bounds. *)
Lemma mean_within (lo hi : Q) (w : Series) :
  w <> [] -> Forall (within lo hi) w -> within lo hi (mean w).
Proof.
  intros Hne Hw. destruct (fsum_within Hw) as (sq & Es & Hs).
  unfold mean, of_nat, of_Z. rewrite Es.
  assert (Hn : 0 < (Z.of_nat (length w) # 1)).
  { unfold Qlt. cbn. destruct w; [contradiction|cbn; lia]. }
  rewrite fdiv_fin by lra.
  eexists. split; [reflexivity|]. rewrite Qred_correct. split.
  - apply Qle_shift_div_l; [exact Hn|lra].
  - apply Qle_shift_div_r; [exact Hn|lra].
Qed.

Lemma slice_nonempty (s : Series) (p i : nat) :
  (1 <= p <= S i)%nat -> (i < length s)%nat -> slice s (S i - p) (S i) <> [].
Proof.
  intros Hp Hi E. apply (f_equal (@length num)) in E.
  rewrite slice_length in E by lia. cbn [length] in E. lia.
Qed.

(** A full window of a rolling mean over finite values. *)
Lemma rolling_mean_within (lo hi : Q) (p : nat) (s : Series) (i : nat)
    (v : num) :
  Forall (within lo hi) s -> (1 <= p <= S i)%nat ->
  nth_error (rolling p mean s) i = Some v -> within lo hi v.
Proof.
  intros Hs Hp H. apply rolling_nth_error in H as [Hi ->].
  destruct (Nat.ltb_spec (S i) p); [lia|].
  apply mean_within; [now apply slice_nonempty|].
  now apply Forall_slice.
Qed.

End MeanFacts.

Import MeanFacts.

(** X7: when every close is finite and lies between [lo] and [hi], the
    middle band that [calculate_bollinger_bands] returns is, from index
    [period - 1] on, finite and between [lo] and [hi]. *)
Theorem middle_band_within_price_range :
  forall (sqrtQ : Q -> Q) (period : nat) (std_dev : Q)
         (self : OrderPointAnalyzer) (df : DataFrame) (lo hi : Q)
         (upper sma lower : Series) (i : nat) (v : num),
    data self = Some df ->
    Forall (within lo hi) (col_close df) ->
    snd (calculate_bollinger_bands sqrtQ period std_dev self)
    = Some (upper, sma, lower) ->
    (1 <= period <= S i)%nat ->
    nth_error sma i = Some v ->
    within lo hi v.
Proof.
  intros sqrtQ period k self df lo hi upper sma lower i v Hd Hc Hr Hp Hv.
  unfold calculate_bollinger_bands in Hr. rewrite Hd in Hr.
  unfold bollinger_series in Hr. cbn [snd] in Hr. injection Hr as _ <- _.
  now apply (@rolling_mean_within lo hi period (col_close df) i v).
Qed.

Lemma middle_band_within_price_range_witness :
  within 90 105
    (nth 22 (snd (fst (bollinger_series Qsqrt6 20 2
                         (col_close Samples.falling23_frame)))) NaN).
Proof.
  set (b := bollinger_series Qsqrt6 20 2 (col_close Samples.falling23_frame)).
  apply (@middle_band_within_price_range Qsqrt6 20 2 Samples.falling23
           Samples.falling23_frame 90 105 (fst (fst b)) (snd (fst b)) (snd b)
           22 _ eq_refl).
  - repeat constructor;
      (eexists; split; [reflexivity|]; split; unfold Qle; cbn; lia).
  - reflexivity.
  - lia.
  - vm_compute. reflexivity.
Defined.

(** ** Levels on short tables *)

Lemma no_member_nil (A : Type) (l : list A) : (forall x, ~ In x l) -> l = [].
Proof.
  destruct l as [|a l]; [reflexivity|]. intros H. destruct (H a). now left.
Qed.

Lemma empty_window_slice (s : Series) (i : nat) : slice s (i - 0) (i + 0) = [].
Proof. unfold slice. now replace (i + 0 - (i - 0))%nat with 0%nat by lia. Qed.

(** X8: with no more than [2 * window] candles, or with a window of 0,
    [find_support_resistance] finds no level at all: both lists are empty.
    The default window of 20 needs at least 41 candles. *)
Theorem levels_need_enough_candles :
  forall (window : nat) (self : OrderPointAnalyzer) (df : DataFrame),
    data self = Some df ->
    (length (candles df) <= 2 * window)%nat \/ window = 0%nat ->
    find_support_resistance window self
    = Some {| support := []; resistance := [] |}.
Proof.
  intros window self df Hd Hw.
  assert (E : level_candidates window df = ([], [])).
  { destruct Hw as [Hn| ->].
    - unfold level_candidates.
      now replace (length (candles df) - window - window)%nat with 0%nat
        by lia.
    - pose proof (support_candidates_spec 0 df) as Hs.
      pose proof (resistance_candidates_spec 0 df) as Hr.
      destruct (level_candidates 0 df) as [sup res]. cbn [fst snd] in Hs, Hr.
      f_equal; apply no_member_nil; intros v Hv.
      + apply Hs in Hv as (i & _ & _ & (m & Hm & _) & _).
        now rewrite empty_window_slice in Hm.
      + apply Hr in Hv as (i & _ & _ & (m & Hm & _) & _).
        now rewrite empty_window_slice in Hm. }
  unfold find_support_resistance. rewrite Hd, E. reflexivity.
Qed.

Lemma levels_need_enough_candles_witness :
  find_support_resistance 20 Samples.spike34
  = Some {| support := []; resistance := [] |}.
Proof.
  apply (@levels_need_enough_candles 20 Samples.spike34 Samples.spike34_frame
           eq_refl).
  left. cbn. lia.
Defined.

(** ** The divergence flags *)

(** X9: [detect_divergence] returns [None], without reading any row, when
    the table has no RSI column.  When it returns flags, the table has at
    least 20 rows and the two flags are never both set. *)
Theorem divergence_flags_exclusive :
  forall (self : OrderPointAnalyzer) (df : DataFrame),
    data self = Some df ->
    (rsi df = None -> detect_divergence self = Ok None) /\
    (forall d, detect_divergence self = Ok (Some d) ->
               (20 <= length (candles df))%nat /\
               bullish d && bearish d = false).
Proof.
  intros self df Hd. split.
  - intros Hr. unfold detect_divergence. now rewrite Hd, Hr.
  - intros d H. unfold detect_divergence in H. rewrite Hd in H.
    destruct (rsi df) as [r|] eqn:Hr; [|discriminate]. split.
    + destruct (Nat.le_gt_cases 20 (length (candles df))) as [Hn|Hn];
        [exact Hn|].
      rewrite cmp_at_short in H by (unfold col_close; now rewrite length_map).
      discriminate.
    + unfold cmp_at, bind in H.
      destruct (iloc (col_close df) (-1)) as [a|]; [|discriminate].
      destruct (iloc (col_close df) (-20)) as [b|]; [|discriminate].
      destruct (iloc r (-1)) as [x|]; [|discriminate].
      destruct (iloc r (-20)) as [y|]; [|discriminate].
      injection H as <-. cbn [bullish bearish]. unfold fgtb.
      destruct (fltb a b) eqn:E; [|reflexivity].
      rewrite (fltb_asym a b E). cbn [andb]. apply andb_false_r.
Qed.

Lemma divergence_flags_exclusive_witness :
  detect_divergence Samples.short10 = Ok None /\
  (20 <= length (candles Samples.strongbuy20_frame))%nat.
Proof.
  destruct (@divergence_flags_exclusive Samples.short10 Samples.short10_frame
              eq_refl) as [H1 _].
  destruct (@divergence_flags_exclusive Samples.strongbuy20
              Samples.strongbuy20_frame eq_refl) as [_ H2].
  split; [now apply H1|].
  apply (H2 {| bullish := true; bearish := false |}). reflexivity.
Defined.

(** ** The aggregator without its columns *)

Lemma nonempty_length (A : Type) (l : list A) : l <> [] -> (1 <= length l)%nat.
Proof. destruct l; [contradiction|cbn; lia]. Qed.

(** X10: on a table that lacks an indicator column [generate_signal] raises
    [KeyError]: without the RSI column whatever else the table holds; with a
    non-empty RSI column, without the MACD column or, the MACD column not
    being empty, without the signal column; and, the three columns holding
    two rows or more, without the lower band.  A table fresh from the fetch
    is such a table. *)
Theorem generate_signal_needs_indicators :
  forall (self : OrderPointAnalyzer) (df : DataFrame),
    data self = Some df ->
    (rsi df = None -> generate_signal self = Raise KeyError) /\
    (forall r, rsi df = Some r -> r <> [] -> macd df = None ->
               generate_signal self = Raise KeyError) /\
    (forall r m, rsi df = Some r -> r <> [] ->
                 macd df = Some m -> m <> [] -> macd_signal df = None ->
                 generate_signal self = Raise KeyError) /\
    (forall r m s, rsi df = Some r -> macd df = Some m ->
                   macd_signal df = Some s ->
                   (1 <= length r)%nat -> (2 <= length m)%nat ->
                   (2 <= length s)%nat -> candles df <> [] ->
                   bb_lower df = None ->
                   generate_signal self = Raise KeyError).
Proof.
  intros self df Hd. unfold generate_signal, score_rules. rewrite Hd.
  split; [|split; [|split]].
  - intros Hr. unfold rsi_rule. now rewrite Hr.
  - intros r Hr Hne Hm.
    rewrite (@rsi_rule_read df _ r (from_end r 1) Hr)
      by (apply iloc_last; now apply nonempty_length).
    cbn [bind]. unfold macd_rule, cmp_cols. now rewrite Hm.
  - intros r m Hr Hne Hm Hnm Hs.
    rewrite (@rsi_rule_read df _ r (from_end r 1) Hr)
      by (apply iloc_last; now apply nonempty_length).
    cbn [bind]. unfold macd_rule, cmp_cols. rewrite Hm, Hs. cbn [bind col].
    rewrite iloc_last by now apply nonempty_length. reflexivity.
  - intros r m s Hr Hm Hs Lr Lm Ls Hne Hlo.
    rewrite (@rsi_rule_read df _ r (from_end r 1) Hr) by now apply iloc_last.
    cbn [bind].
    rewrite (@macd_rule_read df _ m s (from_end m 1) (from_end s 1)
               (from_end m 2) (from_end s 2) Hm Hs)
      by (first [apply iloc_last | apply iloc_prev]; lia).
    cbn [bind]. unfold bollinger_rule.
    rewrite iloc_last
      by (unfold col_close; rewrite length_map; now apply nonempty_length).
    cbn [bind]. now rewrite Hlo.
Qed.

Lemma generate_signal_needs_indicators_witness :
  generate_signal Samples.falling23 = Raise KeyError /\
  generate_signal (fst (calculate_rsi 14 Samples.falling23)) = Raise KeyError.
Proof.
  split.
  - now apply (@generate_signal_needs_indicators Samples.falling23
                 Samples.falling23_frame eq_refl).
  - destruct (@generate_signal_needs_indicators
                (fst (calculate_rsi 14 Samples.falling23))
                (set_rsi Samples.falling23_frame
                   (rsi_series 14 (col_close Samples.falling23_frame)))
                eq_refl) as (_ & H & _).
    apply (H (rsi_series 14 (col_close Samples.falling23_frame)));
      [reflexivity | discriminate | reflexivity].
Defined.

(** ** The action, the confidence and the reasons *)

Lemma contributes_bound (c : Z) (st st' : Score) (k : Z) :
  In c [0; k; - k]%Z -> (0 <= k <= 25)%Z -> contributes c st st' ->
  (Z.abs (sc_confidence st') - 25 * Z.of_nat (length (sc_signals st'))
   <= Z.abs (sc_confidence st) - 25 * Z.of_nat (length (sc_signals st)))%Z /\
  (length (sc_signals st') <= S (length (sc_signals st)))%nat.
Proof.
  intros Hc Hk H.
  pose proof (contributes_confidence H) as Ec.
  pose proof (contributes_reasons H) as Er.
  rewrite Ec, Er.
  cbn in Hc. destruct Hc as [<-|[<-|[<-|[]]]].
  - cbn [Z.eqb]. split; [|lia]. rewrite Z.add_0_r, Nat.add_0_r. lia.
  - destruct (Z.eqb_spec k 0); lia.
  - destruct (Z.eqb_spec (- k) 0); lia.
Qed.

(** The score after the four rules against the number of reasons. *)
Lemma score_rules_reasons (self : OrderPointAnalyzer) (df : DataFrame)
    (st : Score) :
  score_rules self df = Ok st ->
  (length (sc_signals st) <= 4)%nat /\
  (Z.abs (sc_confidence st) <= 25 * Z.of_nat (length (sc_signals st)))%Z.
Proof.
  intros H. unfold score_rules in H.
  destruct (rsi_rule df _) as [s1|] eqn:E1; [|discriminate]. cbn [bind] in H.
  destruct (macd_rule df s1) as [s2|] eqn:E2; [|discriminate]. cbn [bind] in H.
  destruct (bollinger_rule df s2) as [s3|] eqn:E3; [|discriminate].
  cbn [bind] in H.
  apply rsi_rule_contributes in E1 as (c1 & I1 & K1).
  apply macd_rule_contributes in E2 as (c2 & I2 & K2).
  apply bollinger_rule_contributes in E3 as (c3 & I3 & K3).
  apply divergence_rule_contributes in H as (c4 & I4 & K4).
  apply (@contributes_bound c1 _ _ 20 I1) in K1; [|lia].
  apply (@contributes_bound c2 _ _ 25 I2) in K2; [|lia].
  apply (@contributes_bound c3 _ _ 15 I3) in K3; [|lia].
  apply (@contributes_bound c4 _ _ 20 I4) in K4; [|lia].
  cbn [sc_confidence sc_signals length Z.abs Z.of_nat] in K1. lia.
Qed.

(** X11: in every signal that [generate_signal] reports, the action and the
    confidence agree: the action is HOLD exactly when the confidence is at
    most 20, a plain BUY or SELL exactly when it is over 20 and at most 40,
    and a STRONG one exactly when it is over 40.  There are at most four
    reasons and the confidence is at most 25 for each of them: without a
    reason the confidence is 0, and a STRONG action has two reasons or
    more. *)
Theorem action_matches_confidence :
  forall (self : OrderPointAnalyzer) (sig : Signal),
    generate_signal self = Ok (Some sig) ->
    (action sig = "HOLD ⚪"%string <-> (confidence sig <= 20)%Z) /\
    (action sig = "BUY 🟢"%string \/ action sig = "SELL 🔴"%string
     <-> (20 < confidence sig <= 40)%Z) /\
    (action sig = "STRONG BUY 🟢"%string \/ action sig = "STRONG SELL 🔴"%string
     <-> (40 < confidence sig)%Z) /\
    (length (signals sig) <= 4)%nat /\
    (0 <= confidence sig <= 25 * Z.of_nat (length (signals sig)))%Z /\
    (signals sig = [] -> confidence sig = 0%Z) /\
    ((40 < confidence sig)%Z -> (2 <= length (signals sig))%nat).
Proof.
  intros self sig H. unfold generate_signal in H.
  destruct (data self) as [df|]; [|discriminate].
  destruct (score_rules self df) as [st|] eqn:Hs; [|discriminate].
  cbn [bind] in H. injection H as <-. cbn [action confidence signals].
  destruct (score_rules_reasons _ _ Hs) as [Hl Hb].
  unfold classify.
  repeat split; try lia;
    try (intros E; rewrite E in Hb; cbn [length Z.of_nat] in Hb; lia);
    revert Hb;
    destruct (Z.ltb_spec 40 (sc_confidence st));
    destruct (Z.ltb_spec 20 (sc_confidence st));
    destruct (Z.ltb_spec (sc_confidence st) (-40));
    destruct (Z.ltb_spec (sc_confidence st) (-20));
    intros; try lia; try discriminate; try (left; reflexivity);
    try (right; reflexivity); try reflexivity;
    try (match goal with H : _ \/ _ |- _ => destruct H; discriminate end).
Qed.

Lemma action_matches_confidence_witness :
  exists sig, generate_signal Samples.strongbuy20 = Ok (Some sig) /\
              confidence sig = 80%Z /\
              (2 <= length (signals sig))%nat.
Proof.
  eexists. split; [vm_compute; reflexivity|]. split; [reflexivity|].
  apply (@action_matches_confidence Samples.strongbuy20 _ eq_refl).
  cbn. lia.
Defined.

(** ** The order of the entry plan *)

Module PlanFacts.







Lemma rolling_nth (p : nat) (agg : Series -> num) (s : Series) (i : nat) :
  (i < length s)%nat ->
  nth i (rolling p agg s) NaN
  = if (S i <? p)%nat then NaN else agg (slice s (S i - p) (S i)).
Proof.
  intros Hi. apply nth_error_nth. apply rolling_nth_error. now split.
Qed.

(** The latest value of the range series, on no table row, on fewer than 14
    rows, and on 14 well-ranged rows or more. *)
Lemma atr_length (df : DataFrame) :
  length (atr_series df) = length (candles df).
Proof.
  unfold atr_series, col_high, col_low.
  rewrite map2_length, !rolling_length, !length_map. lia.
Qed.

Lemma atr_latest (df : DataFrame) :
  (1 <= length (candles df))%nat ->
  from_end (atr_series df) 1
  = let i := (length (candles df) - 1)%nat in
    if (S i <? 14)%nat then NaN
    else fsub (mean (slice (col_high df) (S i - 14) (S i)))
              (mean (slice (col_low df) (S i - 14) (S i))).
Proof.
  intros Hn. unfold from_end. rewrite atr_length. cbv zeta.
  unfold atr_series.
  assert (Lh : length (col_high df) = length (candles df))
    by apply length_map.
  assert (Ll : length (col_low df) = length (candles df))
    by apply length_map.
  rewrite map2_nth by (rewrite rolling_length; lia).
  rewrite !rolling_nth by lia.
  destruct (S (length (candles df) - 1) <? 14)%nat; reflexivity.
Qed.



End PlanFacts.

Import PlanFacts.



(** X13: [calculate_entry_points] raises [IndexError] on a table without a
    row.  On 1 to 13 rows it returns a plan that holds the rounded latest
    close and nothing else: both ends of the entry range, the stop and the two
    targets are undefined, while the ratio still reads 3. *)
Theorem entry_points_need_14_candles :
  forall (self : OrderPointAnalyzer) (df : DataFrame),
    data self = Some df ->
    (candles df = [] -> calculate_entry_points self = Raise IndexError) /\
    ((1 <= length (candles df) < 14)%nat ->
     calculate_entry_points self
     = Ok (Some {| current_price := fround2 (from_end (col_close df) 1);
                   entry_range := (NaN, NaN);
                   stop_loss := NaN;
                   take_profit_1 := NaN;
                   take_profit_2 := NaN;
                   risk_reward_ratio := of_Z 3 |})).
Proof.
  intros self df Hd. unfold calculate_entry_points. rewrite Hd. split.
  - intros E. unfold col_close. rewrite E. reflexivity.
  - intros Hn.
    rewrite iloc_last by (unfold col_close; rewrite length_map; lia).
    cbn [bind]. rewrite iloc_last by (rewrite atr_length; lia).
    cbn [bind]. rewrite atr_latest by lia. cbv zeta.
    destruct (Nat.ltb_spec (S (length (candles df) - 1)) 14); [|lia].
    destruct (from_end (col_close df) 1); reflexivity.
Qed.

Lemma entry_points_need_14_candles_witness :
  calculate_entry_points Samples.short10
  = Ok (Some {| current_price := Fin 109;
                entry_range := (NaN, NaN);
                stop_loss := NaN;
                take_profit_1 := NaN;
                take_profit_2 := NaN;
                risk_reward_ratio := Fin 3 |}).
Proof.
  destruct (@entry_points_need_14_candles Samples.short10
              Samples.short10_frame eq_refl) as [_ H].
  rewrite H by (cbn; lia). reflexivity.
Defined.

(** ** The indicator calculations together *)

Lemma rsi_effect (p : nat) (self : OrderPointAnalyzer) :
  fst (calculate_rsi p self)
  = match data self with
    | None => self
    | Some df => with_data self (set_rsi df (rsi_series p (col_close df)))
    end.
Proof. unfold calculate_rsi. now destruct (data self). Qed.

Lemma macd_effect (f s g : positive) (self : OrderPointAnalyzer) :
  fst (calculate_macd f s g self)
  = match data self with
    | None => self
    | Some df =>
        let ms := macd_series f s g (col_close df) in
        with_data self (set_macd df (fst (fst ms)) (snd (fst ms)) (snd ms))
    end.
Proof.
  unfold calculate_macd. destruct (data self) as [df|]; [|reflexivity].
  cbv zeta. now destruct (macd_series f s g (col_close df)) as [[m sl] h].
Qed.

Lemma bollinger_effect (sqrtQ : Q -> Q) (p : nat) (k : Q)
    (self : OrderPointAnalyzer) :
  fst (calculate_bollinger_bands sqrtQ p k self)
  = match data self with
    | None => self
    | Some df =>
        let bs := bollinger_series sqrtQ p k (col_close df) in
        with_data self (set_bb df (fst (fst bs)) (snd (fst bs)) (snd bs))
    end.
Proof.
  unfold calculate_bollinger_bands.
  destruct (data self) as [df|]; [|reflexivity].
  cbv zeta. now destruct (bollinger_series sqrtQ p k (col_close df))
    as [[u m] l].
Qed.

(** X14: the three indicator calculations do not interfere.  Each keeps the
    symbol, the timeframe and the candles, and without a table each leaves
    the analyzer as it is.  Any two of them give the same analyzer in either
    order, and a calculation run again replaces what its earlier run stored,
    so that the parameters of the last run count. *)
Theorem indicator_calculations_independent :
  forall (sqrtQ : Q -> Q) (p p' : nat) (f s g f' s' g' : positive)
         (bp bp' : nat) (k k' : Q) (self : OrderPointAnalyzer),
    let R := fun a => fst (calculate_rsi p a) in
    let M := fun a => fst (calculate_macd f s g a) in
    let B := fun a => fst (calculate_bollinger_bands sqrtQ bp k a) in
    (M (R self) = R (M self) /\
     B (R self) = R (B self) /\
     B (M self) = M (B self)) /\
    (R (fst (calculate_rsi p' self)) = R self /\
     M (fst (calculate_macd f' s' g' self)) = M self /\
     B (fst (calculate_bollinger_bands sqrtQ bp' k' self)) = B self) /\
    (candles (frame (B (M (R self)))) = candles (frame self) /\
     symbol (B (M (R self))) = symbol self /\
     timeframe (B (M (R self))) = timeframe self) /\
    (data self = None -> R self = self /\ M self = self /\ B self = self).
Proof.
  intros sqrtQ p p' f s g f' s' g' bp bp' k k' [sy tf [df|]] R M B;
    subst R M B; cbv beta;
    repeat (rewrite ?rsi_effect, ?macd_effect, ?bollinger_effect;
            cbv zeta; cbn [data with_data]);
    unfold frame; cbn [data with_data symbol timeframe];
    repeat split; try reflexivity; discriminate.
Qed.

(** ** Fetching, and the whole analysis *)

Module AnalyzeFacts.

(** After the three calculations the table holds the candles it held, with
    every indicator column computed from their closes. *)
Lemma enrich_data (sqrtQ : Q -> Q) (self : OrderPointAnalyzer) :
  data (enrich sqrtQ self)
  = match data self with
    | None => None
    | Some df =>
        let c := col_close df in
        let ms := macd_series 12 26 9 c in
        let bs := bollinger_series sqrtQ 20 2 c in
        Some (set_bb (set_macd (set_rsi (new_frame (candles df))
                                  (rsi_series 14 c))
                        (fst (fst ms)) (snd (fst ms)) (snd ms))
                (fst (fst bs)) (snd (fst bs)) (snd bs))
    end.
Proof.
  destruct (data self) as [df|] eqn:Hd.
  - now rewrite (enrich_frame sqrtQ self Hd).
  - unfold enrich. cbv zeta.
    rewrite bollinger_effect, macd_effect, rsi_effect. now rewrite !Hd.
Qed.

Lemma enrich_keeps (sqrtQ : Q -> Q) (self : OrderPointAnalyzer) :
  symbol (enrich sqrtQ self) = symbol self /\
  timeframe (enrich sqrtQ self) = timeframe self.
Proof.
  unfold enrich. cbv zeta.
  rewrite bollinger_effect, macd_effect, rsi_effect.
  destruct self as [sy tf [df|]]; cbn [data with_data]; cbv zeta;
    cbn [data with_data symbol timeframe]; split; reflexivity.
Qed.

Lemma analyzer_eq (a b : OrderPointAnalyzer) :
  symbol a = symbol b -> timeframe a = timeframe b -> data a = data b ->
  a = b.
Proof. destruct a, b. cbn. now intros -> -> ->. Qed.

(** [analyze] in terms of the enrichment. *)
Lemma analyze_enrich (sqrtQ : Q -> Q) (exchange : option Exchange)
    (self : OrderPointAnalyzer) :
  let self' := enrich sqrtQ (fst (fetch_ohlcv exchange 500 self)) in
  analyze sqrtQ exchange self
  = match generate_signal self' with
    | Raise e => (self', inr (Raised e))
    | Ok signal =>
        match calculate_entry_points self' with
        | Raise e => (self', inr (Raised e))
        | Ok entry_points =>
            match calculate_volume_profile self' with
            | Raise e => (self', inr (Raised e))
            | Ok volume_info =>
                match signal, entry_points,
                      find_support_resistance 20 self', volume_info with
                | Some sg, Some ep, Some sr, Some vi =>
                    (self', inl {| an_signal := sg;
                                   an_entry_points := ep;
                                   an_support_resistance := sr;
                                   an_volume := vi |})
                | _, _, _, _ => (self', inr TypeError)
                end
            end
        end
    end.
Proof. reflexivity. Qed.

(** On an enriched table of 20 rows or more the aggregator reports. *)
Lemma generate_signal_long (self : OrderPointAnalyzer) (df : DataFrame) :
  data self = Some df -> enriched df -> (20 <= length (candles df))%nat ->
  exists sg, generate_signal self = Ok (Some sg).
Proof.
  intros Hd Henr Hn. unfold generate_signal. rewrite Hd.
  rewrite (@score_rules_spec self df Hd Henr Hn). cbn [bind].
  eexists. reflexivity.
Qed.

Lemma entry_points_return (self : OrderPointAnalyzer) (df : DataFrame) :
  data self = Some df -> (1 <= length (candles df))%nat ->
  exists ep, calculate_entry_points self = Ok (Some ep).
Proof.
  intros Hd Hn. unfold calculate_entry_points. rewrite Hd.
  rewrite iloc_last by (unfold col_close; rewrite length_map; lia).
  cbn [bind]. rewrite iloc_last by (rewrite atr_length; lia).
  cbn [bind]. eexists. reflexivity.
Qed.

Lemma volume_profile_return (self : OrderPointAnalyzer) (df : DataFrame) :
  data self = Some df -> (1 <= length (candles df))%nat ->
  exists vi, calculate_volume_profile self = Ok (Some vi).
Proof.
  intros Hd Hn. unfold calculate_volume_profile. rewrite Hd.
  rewrite iloc_last by (unfold col_volume; rewrite length_map; lia).
  cbn [bind]. eexists. reflexivity.
Qed.

Lemma levels_return (w : nat) (self : OrderPointAnalyzer) (df : DataFrame) :
  data self = Some df -> exists sr, find_support_resistance w self = Some sr.
Proof.
  intros Hd. unfold find_support_resistance. rewrite Hd.
  destruct (level_candidates w df). eexists. reflexivity.
Qed.

End AnalyzeFacts.

Import AnalyzeFacts.

(** X15: [fetch_ohlcv] keeps the symbol and the timeframe.  When it returns
    [None] the analyzer is as it was, an earlier table included.  When it
    returns a table, that table is the analyzer's new table and holds the
    rows that the client gave and no indicator column, whatever the earlier
    table held, so that [generate_signal] raises [KeyError] until the
    indicators are calculated again. *)
Theorem fetch_replaces_table :
  forall (exchange : option Exchange) (limit : Z) (self : OrderPointAnalyzer),
    let r := fetch_ohlcv exchange limit self in
    symbol (fst r) = symbol self /\
    timeframe (fst r) = timeframe self /\
    (snd r = None -> fst r = self) /\
    (forall df, snd r = Some df ->
       data (fst r) = Some df /\
       df = new_frame (candles df) /\
       (exists client, exchange = Some client /\
          client (symbol self) (timeframe self) limit = Some (candles df)) /\
       generate_signal (fst r) = Raise KeyError).
Proof.
  intros exchange limit self r. subst r. unfold fetch_ohlcv.
  destruct exchange as [client|]; [|repeat split; discriminate].
  destruct (client (symbol self) (timeframe self) limit) as [rows|] eqn:E;
    [|repeat split; discriminate].
  cbv zeta. cbn [fst snd]. repeat split; try discriminate;
    injection H as <-; try reflexivity.
  exists client. now split.
Qed.

(** X16: what [analyze] gives.  Without a table after the fetch it raises
    [TypeError] and leaves the analyzer as it was.  With a table of fewer
    than 20 rows it raises [IndexError].  With 20 rows or more it returns the
    four results, each being what its method returns on the analyzer that
    [analyze] leaves, whose table holds the same candles and every indicator
    column. *)
Theorem analyze_outcomes :
  forall (sqrtQ : Q -> Q) (exchange : option Exchange)
         (self : OrderPointAnalyzer),
    let fetched := fst (fetch_ohlcv exchange 500 self) in
    let out := analyze sqrtQ exchange self in
    (data fetched = None -> out = (self, inr TypeError)) /\
    (forall df, data fetched = Some df ->
       candles (frame (fst out)) = candles df /\
       enriched (frame (fst out)) /\
       ((length (candles df) < 20)%nat ->
        snd out = inr (Raised IndexError)) /\
       ((20 <= length (candles df))%nat ->
        exists a : Analysis,
          snd out = inl a /\
          generate_signal (fst out) = Ok (Some (an_signal a)) /\
          calculate_entry_points (fst out) = Ok (Some (an_entry_points a)) /\
          find_support_resistance 20 (fst out)
          = Some (an_support_resistance a) /\
          calculate_volume_profile (fst out) = Ok (Some (an_volume a)))).
Proof.
  intros sqrtQ exchange self fetched out. subst out.
  rewrite analyze_enrich. cbv zeta. fold fetched. split.
  - intros Hnone.
    assert (Hf : fetched = self).
    { subst fetched. unfold fetch_ohlcv in *.
      destruct exchange as [client|]; [|reflexivity].
      destruct (client _ _ _); [discriminate Hnone|reflexivity]. }
    clearbody fetched. subst fetched.
    assert (He : enrich sqrtQ self = self).
    { apply analyzer_eq; [apply enrich_keeps | apply enrich_keeps |].
      now rewrite enrich_data, Hnone. }
    rewrite He.
    unfold generate_signal, calculate_entry_points, calculate_volume_profile,
      find_support_resistance. now rewrite Hnone.
  - intros df Hd.
    destruct (enrich_enriched sqrtQ fetched Hd) as (Hd' & Hc & Henr).
    set (self' := enrich sqrtQ fetched) in *.
    destruct (Nat.lt_ge_cases (length (candles df)) 20) as [Hlt|Hge].
    + rewrite (@generate_signal_short self' (frame self') Hd' Henr)
        by (rewrite Hc; exact Hlt).
      cbn [fst snd]. repeat split; try assumption. lia.
    + destruct (@generate_signal_long self' (frame self') Hd' Henr) as [sg Hsg];
        [rewrite Hc; exact Hge|].
      destruct (@entry_points_return self' (frame self') Hd') as [ep Hep];
        [rewrite Hc; lia|].
      destruct (@volume_profile_return self' (frame self') Hd') as [vi Hvi];
        [rewrite Hc; lia|].
      destruct (@levels_return 20 self' (frame self') Hd') as [sr Hsr].
      rewrite Hsg, Hep, Hvi, Hsr. cbn [fst snd].
      repeat split; try assumption; [lia|].
      intros _. eexists. split; [reflexivity|].
      cbn [an_signal an_entry_points an_support_resistance an_volume].
      repeat split; assumption.
Qed.

Lemma analyze_outcomes_witness :
  analyze Qsqrt6 None {| symbol := "BTC/USDT"; timeframe := "1h";
                         data := None |}
  = ({| symbol := "BTC/USDT"; timeframe := "1h"; data := None |},
     inr TypeError) /\
  snd (analyze Qsqrt6 (Some (fun _ _ _ => Some (candles Samples.short10_frame)))
         Samples.short10)
  = inr (Raised IndexError).
Proof.
  split.
  - now apply (analyze_outcomes Qsqrt6 None
                 {| symbol := "BTC/USDT"; timeframe := "1h"; data := None |}).
  - destruct (analyze_outcomes Qsqrt6
                (Some (fun _ _ _ => Some (candles Samples.short10_frame)))
                Samples.short10) as [_ H].
    destruct (H Samples.short10_frame eq_refl) as (_ & _ & Hs & _).
    apply Hs. cbn. lia.
Defined.

(** X17: a fetch that fails is not reported by [analyze]: with an earlier
    table it analyses the candles of that table again, and gives what it
    gives when the client returns those same candles. *)
Theorem analyze_reuses_earlier_candles :
  forall (sqrtQ : Q -> Q) (exchange : option Exchange)
         (self : OrderPointAnalyzer) (df : DataFrame),
    data self = Some df ->
    snd (fetch_ohlcv exchange 500 self) = None ->
    analyze sqrtQ exchange self
    = analyze sqrtQ (Some (fun _ _ _ => Some (candles df))) self.
Proof.
  intros sqrtQ exchange self df Hd Hf.
  assert (Hs : fst (fetch_ohlcv exchange 500 self) = self).
  { unfold fetch_ohlcv in *. destruct exchange as [client|]; [|reflexivity].
    destruct (client _ _ _); [discriminate Hf|reflexivity]. }
  rewrite !analyze_enrich. cbv zeta. rewrite Hs.
  unfold fetch_ohlcv. cbv zeta. cbn [fst].
  assert (E : enrich sqrtQ self
              = enrich sqrtQ (with_data self (new_frame (candles df)))).
  { destruct (enrich_keeps sqrtQ self) as [H1 H2].
    destruct (enrich_keeps sqrtQ (with_data self (new_frame (candles df))))
      as [H3 H4].
    apply analyzer_eq.
    - now rewrite H1, H3.
    - now rewrite H2, H4.
    - rewrite !enrich_data, Hd. reflexivity. }
  now rewrite E.
Qed.

Lemma analyze_reuses_earlier_candles_witness :
  analyze Qsqrt6 None Samples.short10
  = analyze Qsqrt6 (Some (fun _ _ _ => Some (candles Samples.short10_frame)))
      Samples.short10.
Proof.
  apply (@analyze_reuses_earlier_candles Qsqrt6 None Samples.short10
           Samples.short10_frame); reflexivity.
Defined.
